(** * AuthContext.tsx: the session provider and the login/register dialog

    A shallow embedding of [src/context/AuthContext.tsx] (the [AuthProvider]
    component and, after the separator, the [AuthForms] dialog) and the
    properties of its specification.

    The code is asynchronous JavaScript that mutates React state, the
    browser's [localStorage], a toast channel and the network.  It is
    embedded as a state-and-exception monad over a record of everything
    the two components can change; every primitive effect is also appended
    to an event log, so that the order of effects can be stated.  What the
    network and the mock service answer is a parameter ([Backend]). *)

From stdpp Require Import gmap list fin_maps.
From Stdlib Require Import NArith ZArith Ascii String.

Set Default Proof Using "Type".
Local Set Warnings "-register-all".
Local Open Scope list_scope.

(* ===================================================================== *)
(** * Part I: definitions *)
(* ===================================================================== *)

(** ** JavaScript strings

    A JavaScript string is a sequence of UTF-16 code units; [length],
    [===] and a regular expression without the [u] flag all work on code
    units. *)

Definition jsstring : Type := list N.

(** A string literal of the source (all of them are ASCII). *)
Definition js (s : string) : jsstring :=
  map N_of_ascii (list_ascii_of_string s).
Arguments js : simpl never.

(** ** JavaScript values

    The values this file handles come from JSON responses, form inputs
    and literals: no functions, symbols or cyclic objects. *)

(** An IEEE double: a NaN, an infinity, or [(-1)^neg * mant * 2^exp]. *)
Inductive number : Type :=
| NaN
| Infinity (neg : bool)
| Finite (neg : bool) (mant : N) (exp : Z).

Inductive JVal : Type :=
| JUndefined
| JNull
| JBool (b : bool)
| JNum (n : number)
| JStr (s : jsstring)
| JArr (items : list JVal)
| JObj (props : list (jsstring * JVal)).

(** ToBoolean, as used by [!x], [!!x], [x || y] and [x && y]. *)
Definition truthy (v : JVal) : bool :=
  match v with
  | JUndefined | JNull => false
  | JBool b => b
  | JNum NaN => false
  | JNum (Infinity _) => true
  | JNum (Finite _ mant _) => negb (mant =? 0)%N
  | JStr s => match s with [] => false | _ :: _ => true end
  | JArr _ | JObj _ => true
  end.

(** [v === null || v === undefined]: the values on which a property read
    throws and on which [?.] short-circuits. *)
Definition nullish (v : JVal) : bool :=
  match v with
  | JUndefined | JNull => true
  | _ => false
  end.

(** [typeof v === 'object' && v !== null]. *)
Definition is_object (v : JVal) : bool :=
  match v with
  | JArr _ | JObj _ => true
  | _ => false
  end.

(** [a || b] on already evaluated operands. *)
Definition js_or (a b : JVal) : JVal := if truthy a then a else b.

(** The own property [k] of a property list. *)
Fixpoint lookup_prop (k : jsstring) (props : list (jsstring * JVal)) : option JVal :=
  match props with
  | [] => None
  | (k', v) :: rest => if decide (k' = k) then Some v else lookup_prop k rest
  end.

(** [k in v] restricted to own data properties of an object literal. *)
Definition has_field (v : JVal) (k : jsstring) : bool :=
  match v with
  | JObj props => bool_decide (is_Some (lookup_prop k props))
  | _ => false
  end.

(** What the engine provides and the repository does not define. *)
Record Engine : Type := {
  (** Number::toString *)
  Number_toString : number → jsstring;
  (** [JSON.stringify(v)]: the text, or [None] where it returns
      [undefined] *)
  JSON_stringify_text : JVal → option jsstring;
  (** the message of the TypeError thrown by reading property [k] of
      [null] or [undefined] (its wording differs between engines) *)
  TypeError_message : JVal → jsstring → jsstring;
  (** the message of the TypeError thrown by ToString on an object that
      cannot be converted to a primitive value *)
  ToString_error_message : JVal → jsstring
}.

(** [JSON.stringify(v)]: always a string or [undefined]. *)
Definition JSON_stringify (E : Engine) (v : JVal) : JVal :=
  match JSON_stringify_text E v with
  | Some text => JStr text
  | None => JUndefined
  end.

Fixpoint join (sep : jsstring) (parts : list jsstring) : jsstring :=
  match parts with
  | [] => []
  | [p] => p
  | p :: rest => p ++ sep ++ join sep rest
  end.

(** Whether ToString yields a string.  On an object it calls the
    object's [toString]: the inherited one unless the object has an own
    property of that name, which in a value read from JSON is never
    callable; [valueOf] then yields the object itself and ToString throws
    a TypeError.  On an array it joins the conversions of the elements
    other than [null] and [undefined]. *)
Fixpoint can_convert (v : JVal) : bool :=
  match v with
  | JArr items =>
      (fix all (l : list JVal) : bool :=
         match l with
         | [] => true
         | x :: l' => (nullish x || can_convert x) && all l'
         end) items
  | JObj props => negb (bool_decide (is_Some (lookup_prop (js "toString") props)))
  | _ => true
  end.

(** The string that ToString yields, where it yields one (see
    [can_convert]); template literals and [Storage.setItem] apply ToString
    through [ToString] below, which throws where it does not. *)
Fixpoint to_string (E : Engine) (v : JVal) : jsstring :=
  match v with
  | JUndefined => js "undefined"
  | JNull => js "null"
  | JBool true => js "true"
  | JBool false => js "false"
  | JNum n => Number_toString E n
  | JStr s => s
  | JArr items =>
      join (js ",")
        ((fix each (l : list JVal) : list jsstring :=
            match l with
            | [] => []
            | x :: l' => (if nullish x then [] else to_string E x) :: each l'
            end) items)
  | JObj _ => js "[object Object]"
  end.

(** [new Error(message)], seen through the properties this code reads. *)
Definition new_Error (message : jsstring) : JVal :=
  JObj [(js "message", JStr message)].

Definition new_TypeError (E : Engine) (base : JVal) (k : jsstring) : JVal :=
  JObj [(js "message", JStr (TypeError_message E base k))].

(** The TypeError that ToString throws on [v]. *)
Definition new_ToString_error (E : Engine) (v : JVal) : JVal :=
  JObj [(js "message", JStr (ToString_error_message E v))].

(** ** Regular expressions

    The pattern language that [validateRegisterForm] uses (character
    classes, concatenation, [+]), closed under derivatives.  The pattern
    has no flags, groups, anchors or look-around, so [RegExp.prototype.test]
    answers whether some substring of the input is in the language of the
    pattern; it is computed here with Brzozowski derivatives. *)

Inductive regex : Type :=
| Void
| Eps
| CharSet (p : N → bool)
| Cat (r1 r2 : regex)
| Alt (r1 r2 : regex)
| Star (r : regex)
| Plus (r : regex).

(** The code units matched by [\s]: WhiteSpace and LineTerminator. *)
Definition is_space (c : N) : bool :=
  ((c =? 9) || (c =? 10) || (c =? 11) || (c =? 12) || (c =? 13) || (c =? 32)
   || (c =? 160) || (c =? 5760) || ((8192 <=? c) && (c <=? 8202))
   || (c =? 8232) || (c =? 8233) || (c =? 8239) || (c =? 8287)
   || (c =? 12288) || (c =? 65279))%N.

(** [\S] *)
Definition NotSpace : regex := CharSet (λ c, negb (is_space c)).

(** A literal character of a pattern. *)
Definition Lit (a : ascii) : regex := CharSet (N.eqb (N_of_ascii a)).

Fixpoint nullable (r : regex) : bool :=
  match r with
  | Void => false
  | Eps => true
  | CharSet _ => false
  | Cat r1 r2 => nullable r1 && nullable r2
  | Alt r1 r2 => nullable r1 || nullable r2
  | Star _ => true
  | Plus r => nullable r
  end.

Fixpoint deriv (c : N) (r : regex) : regex :=
  match r with
  | Void => Void
  | Eps => Void
  | CharSet p => if p c then Eps else Void
  | Cat r1 r2 =>
      if nullable r1 then Alt (Cat (deriv c r1) r2) (deriv c r2)
      else Cat (deriv c r1) r2
  | Alt r1 r2 => Alt (deriv c r1) (deriv c r2)
  | Star r => Cat (deriv c r) (Star r)
  | Plus r => Cat (deriv c r) (Star r)
  end.

(** Does a match of [r] start at the beginning of [s]? *)
Fixpoint match_here (r : regex) (s : jsstring) : bool :=
  nullable r ||
  match s with
  | [] => false
  | c :: s' => match_here (deriv c r) s'
  end.

(** [r.test(s)]: try every start position, from the left. *)
Fixpoint regex_test (r : regex) (s : jsstring) : bool :=
  match_here r s ||
  match s with
  | [] => false
  | _ :: s' => regex_test r s'
  end.

(** The language of a pattern. *)
Inductive matches : regex → jsstring → Prop :=
| m_eps : matches Eps []
| m_char p c : p c = true → matches (CharSet p) [c]
| m_cat r1 r2 s1 s2 : matches r1 s1 → matches r2 s2 → matches (Cat r1 r2) (s1 ++ s2)
| m_alt_l r1 r2 s : matches r1 s → matches (Alt r1 r2) s
| m_alt_r r1 r2 s : matches r2 s → matches (Alt r1 r2) s
| m_star_nil r : matches (Star r) []
| m_star_cons r s1 s2 : matches r s1 → matches (Star r) s2 → matches (Star r) (s1 ++ s2)
| m_plus r s1 s2 : matches r s1 → matches (Star r) s2 → matches (Plus r) (s1 ++ s2).

(** [/\S+@\S+\.\S+/] *)
Definition email_pattern : regex :=
  Cat (Plus NotSpace)
    (Cat (Lit "@")
       (Cat (Plus NotSpace)
          (Cat (Lit ".") (Plus NotSpace)))).

(** The shape the specification calls [text@text.text], where a [text] is
    a non-empty run of characters none of which is white space, and the
    shape may occur anywhere in the input. *)
Definition text (t : jsstring) : Prop :=
  t ≠ [] ∧ Forall (λ c, is_space c = false) t.

Definition text_at_text_dot_text (s : jsstring) : Prop :=
  ∃ pre a b c post,
    s = pre ++ a ++ js "@" ++ b ++ js "." ++ c ++ post ∧
    text a ∧ text b ∧ text c.

(** ** The state of the two components and their surroundings *)

Inductive Tab : Type := TabLogin | TabRegister.

(** [loginForm] and [registerForm]: the fields hold what the inputs
    report through [e.target.value], always strings. *)
Module LoginForm.
Record t : Type := mk { email : jsstring; password : jsstring }.
End LoginForm.

Module RegisterForm.
Record t : Type := mk {
  username : jsstring;
  email : jsstring;
  password : jsstring;
  confirmPassword : jsstring
}.
End RegisterForm.

(** The argument of [toast]. *)
Record Toast : Type := {
  title : jsstring;
  description : JVal;
  variant : option jsstring
}.

(** Every effect of the two components, in the order it happens. *)
Inductive Event : Type :=
| EvSetUser (v : JVal)
| EvSetIsLoading (b : bool)
| EvPost (url : jsstring) (body : JVal) (withCredentials : bool)
| EvGetCurrentUser
| EvLogout
| EvSetItem (key value : jsstring)
| EvToast (t : Toast)
| EvConsoleError (args : list JVal)
| EvPreventDefault
| EvSetActiveTab (tab : Tab)
| EvSetLoginForm (f : LoginForm.t)
| EvSetRegisterForm (f : RegisterForm.t)
| EvSetFormErrors (errors : gmap jsstring jsstring)
| EvSetServerError (v : JVal)
| EvOnClose.

Record World : Type := mkWorld {
  (** [AuthProvider]: [useState<User | null>(null)], [useState(true)] *)
  user : JVal;
  isLoading : bool;
  (** the browser's [localStorage] *)
  localStorage : gmap jsstring jsstring;
  (** [AuthForms]: its five [useState] cells *)
  activeTab : Tab;
  loginForm : LoginForm.t;
  registerForm : RegisterForm.t;
  formErrors : gmap jsstring jsstring;
  serverError : JVal;
  (** the log of effects, oldest first *)
  events : list Event
}.

(** How a request made with axios ends.  axios rejects with an
    [AxiosError], an object; [error] lists the properties of that
    object. *)
Inductive Outcome : Type :=
| Resolved (value : JVal)
| Rejected (error : list (jsstring * JVal)).

(** How a call to the mock service ends.  The service is not part of the
    sources, and a promise can reject with any value, [null] and
    [undefined] included. *)
Inductive Settled : Type :=
| Fulfilled (value : JVal)
| Failed (reason : JVal).

(** What the collaborators answer.  For [axios.post] the resolved value
    is the [data] of the response. *)
Record Backend : Type := {
  post_outcome : jsstring → JVal → Outcome;
  getCurrentUser_outcome : Settled;
  logout_outcome : Settled
}.

(** The response object of axios, of which the code reads [data]. *)
Record AxiosResponse : Type := { data : JVal }.

(** ** The monad of effects: state and exceptions *)

Inductive Result (A : Type) : Type :=
| Ok (a : A)
| Throw (e : JVal).
Arguments Ok {A} a.
Arguments Throw {A} e.

Definition M (A : Type) : Type := World → Result A * World.

#[global] Instance M_ret : MRet M := λ A a w, (Ok a, w).

#[global] Instance M_bind : MBind M := λ A B f m w,
  match m w with
  | (Ok a, w') => f a w'
  | (Throw e, w') => (Throw e, w')
  end.

Definition throw {A : Type} (e : JVal) : M A := λ w, (Throw e, w).

Definition gets {A : Type} (f : World → A) : M A := λ w, (Ok (f w), w).

(** [try { body } catch (error) { handler error }] *)
Definition try_catch {A : Type} (body : M A) (handler : JVal → M A) : M A := λ w,
  match body w with
  | (Ok a, w') => (Ok a, w')
  | (Throw e, w') => handler e w'
  end.

(** [try { body } finally { final }]: [final] runs on both exits and the
    outcome of [body] stands unless [final] throws itself. *)
Definition try_finally {A : Type} (body : M A) (final : M ()) : M A := λ w,
  match body w with
  | (r, w') =>
      match final w' with
      | (Ok _, w'') => (r, w'')
      | (Throw e, w'') => (Throw e, w'')
      end
  end.

(** An async function's promise: fulfilled on normal return, rejected
    with the thrown value otherwise. *)
Definition rejects {A : Type} (r : Result A) : bool :=
  match r with
  | Ok _ => false
  | Throw _ => true
  end.

Definition emit (ev : Event) : M () := λ w,
  (Ok (),
   mkWorld (user w) (isLoading w) (localStorage w) (activeTab w) (loginForm w)
     (registerForm w) (formErrors w) (serverError w) (events w ++ [ev])).

Definition modify (f : World → World) : M () := λ w, (Ok (), f w).

(** *** Reading properties *)

(** The value of [v.k] for [v] neither [null] nor [undefined].  Only own
    data properties are modelled: the names this file reads ([token],
    [user], [username], [message], [response], [data], [error]) are not
    defined on any built-in prototype. *)
Definition own_prop (v : JVal) (k : jsstring) : JVal :=
  match v with
  | JObj props => default JUndefined (lookup_prop k props)
  | _ => JUndefined
  end.

(** [v.k] *)
Definition get_prop (E : Engine) (v : JVal) (k : jsstring) : M JVal :=
  if nullish v then throw (new_TypeError E v k) else mret (own_prop v k).

(** [v?.k] *)
Definition get_prop_opt (E : Engine) (v : JVal) (k : jsstring) : M JVal :=
  if nullish v then mret JUndefined else get_prop E v k.

(** *** State setters and collaborators *)

Definition setUser (v : JVal) : M () :=
  emit (EvSetUser v) ;;
  modify (λ w, mkWorld v (isLoading w) (localStorage w) (activeTab w) (loginForm w)
                 (registerForm w) (formErrors w) (serverError w) (events w)).

Definition setIsLoading (b : bool) : M () :=
  emit (EvSetIsLoading b) ;;
  modify (λ w, mkWorld (user w) b (localStorage w) (activeTab w) (loginForm w)
                 (registerForm w) (formErrors w) (serverError w) (events w)).

(** ToString: the string, or a thrown TypeError. *)
Definition ToString (E : Engine) (v : JVal) : M jsstring :=
  if can_convert v then mret (to_string E v) else throw (new_ToString_error E v).

(** [localStorage.setItem(key, value)] converts [value] with ToString,
    which may throw, and stores the string; the storage is taken to have
    room for it. *)
Definition localStorage_setItem (E : Engine) (key : jsstring) (value : JVal) : M () :=
  text ← ToString E value ;
  emit (EvSetItem key text) ;;
  modify (λ w, mkWorld (user w) (isLoading w) (<[key := text]> (localStorage w))
                 (activeTab w) (loginForm w) (registerForm w) (formErrors w)
                 (serverError w) (events w)).

Definition setActiveTab (tab : Tab) : M () :=
  emit (EvSetActiveTab tab) ;;
  modify (λ w, mkWorld (user w) (isLoading w) (localStorage w) tab (loginForm w)
                 (registerForm w) (formErrors w) (serverError w) (events w)).

Definition setLoginForm (f : LoginForm.t) : M () :=
  emit (EvSetLoginForm f) ;;
  modify (λ w, mkWorld (user w) (isLoading w) (localStorage w) (activeTab w) f
                 (registerForm w) (formErrors w) (serverError w) (events w)).

Definition setRegisterForm (f : RegisterForm.t) : M () :=
  emit (EvSetRegisterForm f) ;;
  modify (λ w, mkWorld (user w) (isLoading w) (localStorage w) (activeTab w) (loginForm w)
                 f (formErrors w) (serverError w) (events w)).

Definition setFormErrors (errors : gmap jsstring jsstring) : M () :=
  emit (EvSetFormErrors errors) ;;
  modify (λ w, mkWorld (user w) (isLoading w) (localStorage w) (activeTab w) (loginForm w)
                 (registerForm w) errors (serverError w) (events w)).

Definition setServerError (v : JVal) : M () :=
  emit (EvSetServerError v) ;;
  modify (λ w, mkWorld (user w) (isLoading w) (localStorage w) (activeTab w) (loginForm w)
                 (registerForm w) (formErrors w) v (events w)).

Definition toast (t : Toast) : M () := emit (EvToast t).
Definition console_error (args : list JVal) : M () := emit (EvConsoleError args).
Definition preventDefault : M () := emit EvPreventDefault.
Definition onClose : M () := emit EvOnClose.

(** [await c] for a request [c] that ends as [o]. *)
Definition await (o : Outcome) : M JVal :=
  match o with
  | Resolved v => mret v
  | Rejected error => throw (JObj error)
  end.

(** [await c] for a call [c] to the mock service that ends as [o]. *)
Definition await_settled (o : Settled) : M JVal :=
  match o with
  | Fulfilled v => mret v
  | Failed reason => throw reason
  end.

(** [await axios.post(url, body, { withCredentials })] *)
Definition axios_post (B : Backend) (url : jsstring) (body : JVal) (withCredentials : bool)
  : M AxiosResponse :=
  emit (EvPost url body withCredentials) ;;
  d ← await (post_outcome B url body) ;
  mret {| data := d |}.

(** [await mockApiService.getCurrentUser()] *)
Definition mockApiService_getCurrentUser (B : Backend) : M JVal :=
  emit EvGetCurrentUser ;; await_settled (getCurrentUser_outcome B).

(** [await mockApiService.logout()] *)
Definition mockApiService_logout (B : Backend) : M JVal :=
  emit EvLogout ;; await_settled (logout_outcome B).

(** ** [AuthProvider] *)

Definition login_url : jsstring := js "http://localhost:5000/api/auth/login".
Definition register_url : jsstring := js "http://localhost:5000/api/auth/register".

Section AuthProvider.
Context (E : Engine) (B : Backend).

(** The effect registered by [useEffect(..., [])]: run once after the
    first render. *)
Definition checkAuth : M () :=
  try_finally
    (try_catch
       (currentUser ← mockApiService_getCurrentUser B ;
        setUser currentUser)
       (λ error,
          console_error [JStr (js "Auth check failed:"); error]))
    (setIsLoading false).

Definition login (credentials : JVal) : M () :=
  try_finally
    (try_catch
       (setIsLoading true ;;
        res ← axios_post B login_url credentials true ;
        token ← get_prop E (data res) (js "token") ;
        (if negb (truthy token) then
           console_error [JStr (js "No token received:"); data res] ;;
           throw (new_Error (js "Login failed. No token."))
         else mret ()) ;;
        token ← get_prop E (data res) (js "token") ;
        localStorage_setItem E (js "token") token ;;
        u ← get_prop E (data res) (js "user") ;
        setUser u ;;
        u ← get_prop E (data res) (js "user") ;
        name ← get_prop E u (js "username") ;
        text ← ToString E name ;
        toast {| title := js "Welcome back!";
                 description := JStr (js "Logged in as " ++ text);
                 variant := None |})
       (λ error,
          message ← get_prop E error (js "message") ;
          toast {| title := js "Login failed";
                   description := js_or message (JStr (js "An error occurred during login"));
                   variant := Some (js "destructive") |} ;;
          throw error))
    (setIsLoading false).

Definition register (credentials : JVal) : M () :=
  try_finally
    (try_catch
       (setIsLoading true ;;
        res ← axios_post B register_url credentials false ;
        u ← get_prop E (data res) (js "user") ;
        setUser u ;;
        u ← get_prop E (data res) (js "user") ;
        name ← get_prop E u (js "username") ;
        text ← ToString E name ;
        toast {| title := js "Registration successful!";
                 description := JStr (js "Welcome, " ++ text ++ js "!");
                 variant := None |})
       (λ error,
          message ← get_prop E error (js "message") ;
          toast {| title := js "Registration failed";
                   description :=
                     js_or message (JStr (js "An error occurred during registration"));
                   variant := Some (js "destructive") |} ;;
          throw error))
    (setIsLoading false).

Definition logout : M () :=
  try_catch
    (mockApiService_logout B ;;
     setUser JNull ;;
     toast {| title := js "Logged out";
              description := JStr (js "You have been successfully logged out");
              variant := None |})
    (λ error,
       message ← get_prop E error (js "message") ;
       toast {| title := js "Logout failed";
                description := js_or message (JStr (js "An error occurred during logout"));
                variant := Some (js "destructive") |}).

Definition updateUser (updatedUser : JVal) : M () :=
  setUser updatedUser ;;
  localStorage_setItem E (js "user") (JSON_stringify E updatedUser).

End AuthProvider.

(** The [value] the provider hands to its consumers on a render. *)
Module AuthContextType.
Record t : Type := mk { user : JVal; isAuthenticated : bool; isLoading : bool }.
End AuthContextType.

Definition context_value (w : World) : AuthContextType.t :=
  AuthContextType.mk (user w) (truthy (user w)) (isLoading w).

(** ** [AuthForms] *)

(** The two validators close over the form state of the render they
    belong to; it is their argument here. *)
Definition validateLoginForm (f : LoginForm.t) : gmap jsstring jsstring :=
  let errors : gmap jsstring jsstring := ∅ in
  let errors :=
    if negb (truthy (JStr (LoginForm.email f)))
    then <[js "email" := js "Email is required"]> errors else errors in
  let errors :=
    if negb (truthy (JStr (LoginForm.password f)))
    then <[js "password" := js "Password is required"]> errors else errors in
  errors.

Definition validateRegisterForm (f : RegisterForm.t) : gmap jsstring jsstring :=
  let errors : gmap jsstring jsstring := ∅ in
  let errors :=
    if negb (truthy (JStr (RegisterForm.username f)))
    then <[js "username" := js "Username is required"]> errors else errors in
  let errors :=
    if negb (truthy (JStr (RegisterForm.email f)))
    then <[js "email" := js "Email is required"]> errors
    else if negb (regex_test email_pattern (RegisterForm.email f))
    then <[js "email" := js "Invalid email"]> errors else errors in
  let errors :=
    if negb (truthy (JStr (RegisterForm.password f)))
    then <[js "password" := js "Password is required"]> errors
    else if (List.length (RegisterForm.password f) <? 6)%nat
    then <[js "password" := js "Password must be at least 6 characters"]> errors
    else errors in
  let errors :=
    if bool_decide (RegisterForm.password f ≠ RegisterForm.confirmPassword f)
    then <[js "confirmPassword" := js "Passwords do not match"]> errors else errors in
  errors.

(** [Object.keys(o)] of a string-to-string record; only its length is
    used. *)
Definition Object_keys (o : gmap jsstring jsstring) : list jsstring :=
  (map_to_list o).*1.

Section AuthForms.
Context (E : Engine) (B : Backend).

Definition handleLoginSubmit : M () :=
  preventDefault ;;
  errors ← gets (λ w, validateLoginForm (loginForm w)) ;
  setFormErrors errors ;;
  setServerError JNull ;;
  if bool_decide (List.length (Object_keys errors) = 0%nat) then
    f ← gets loginForm ;
    try_catch
      (login E B (JObj [(js "email", JStr (LoginForm.email f));
                        (js "password", JStr (LoginForm.password f))]) ;;
       onClose)
      (λ error,
         console_error [JStr (js "Login error:"); error] ;;
         response ← get_prop E error (js "response") ;
         d ← get_prop_opt E response (js "data") ;
         e ← get_prop_opt E d (js "error") ;
         setServerError (js_or e (JStr (js "Login failed. Please try again."))))
  else mret ().

Definition handleRegisterSubmit : M () :=
  preventDefault ;;
  errors ← gets (λ w, validateRegisterForm (registerForm w)) ;
  setFormErrors errors ;;
  setServerError JNull ;;
  if bool_decide (List.length (Object_keys errors) = 0%nat) then
    f ← gets registerForm ;
    try_catch
      (register E B (JObj [(js "username", JStr (RegisterForm.username f));
                           (js "email", JStr (RegisterForm.email f));
                           (js "password", JStr (RegisterForm.password f))]) ;;
       onClose)
      (λ error,
         response ← get_prop E error (js "response") ;
         d ← get_prop_opt E response (js "data") ;
         m ← get_prop_opt E d (js "message") ;
         setServerError
           (js_or m (JStr (js "Registration failed. Try a different email."))))
  else mret ().

End AuthForms.

(** The [onChange] handlers of the six inputs:
    [setLoginForm({ ...loginForm, email: val })] and the like. *)
Definition onChange_login_email (val : jsstring) : M () :=
  f ← gets loginForm ; setLoginForm (LoginForm.mk val (LoginForm.password f)).

Definition onChange_login_password (val : jsstring) : M () :=
  f ← gets loginForm ; setLoginForm (LoginForm.mk (LoginForm.email f) val).

Definition onChange_register_username (val : jsstring) : M () :=
  f ← gets registerForm ;
  setRegisterForm (RegisterForm.mk val (RegisterForm.email f) (RegisterForm.password f)
                     (RegisterForm.confirmPassword f)).

Definition onChange_register_email (val : jsstring) : M () :=
  f ← gets registerForm ;
  setRegisterForm (RegisterForm.mk (RegisterForm.username f) val (RegisterForm.password f)
                     (RegisterForm.confirmPassword f)).

Definition onChange_register_password (val : jsstring) : M () :=
  f ← gets registerForm ;
  setRegisterForm (RegisterForm.mk (RegisterForm.username f) (RegisterForm.email f) val
                     (RegisterForm.confirmPassword f)).

Definition onChange_register_confirmPassword (val : jsstring) : M () :=
  f ← gets registerForm ;
  setRegisterForm (RegisterForm.mk (RegisterForm.username f) (RegisterForm.email f)
                     (RegisterForm.password f) val).




(** ** Runs of the application *)

(** The first render: the initial values of the [useState] cells, with
    whatever the browser's storage holds and the [defaultTab] prop. *)
Definition initial (storage : gmap jsstring jsstring) (defaultTab : Tab) : World :=
  mkWorld JNull true storage defaultTab (LoginForm.mk [] []) (RegisterForm.mk [] [] [] [])
    ∅ JNull [].

(** What can happen afterwards: the bootstrap effect, a consumer calling
    an operation of the context, or the user acting on the dialog. *)
Inductive Action : Type :=
| DoCheckAuth
| DoLogin (credentials : JVal)
| DoRegister (credentials : JVal)
| DoLogout
| DoUpdateUser (updatedUser : JVal)
| DoSwitchTab (tab : Tab)
| DoEdit (tab : Tab) (field : nat) (val : jsstring)
| DoSubmit (tab : Tab).

Definition perform (E : Engine) (B : Backend) (a : Action) : M () :=
  match a with
  | DoCheckAuth => checkAuth B
  | DoLogin credentials => login E B credentials
  | DoRegister credentials => register E B credentials
  | DoLogout => logout E B
  | DoUpdateUser updatedUser => updateUser E updatedUser
  | DoSwitchTab tab => setActiveTab tab
  | DoEdit TabLogin 0 val => onChange_login_email val
  | DoEdit TabLogin _ val => onChange_login_password val
  | DoEdit TabRegister 0 val => onChange_register_username val
  | DoEdit TabRegister 1 val => onChange_register_email val
  | DoEdit TabRegister 2 val => onChange_register_password val
  | DoEdit TabRegister _ val => onChange_register_confirmPassword val
  | DoSubmit TabLogin => handleLoginSubmit E B
  | DoSubmit TabRegister => handleRegisterSubmit E B
  end.

(** The state after an action, whatever its promise settles to. *)
Definition after (E : Engine) (B : Backend) (a : Action) (w : World) : World :=
  (perform E B a w).2.

(** A run: the actions in order, each with what the collaborators answer
    while it executes (they may answer differently at every step). *)
Fixpoint run (E : Engine) (steps : list (Backend * Action)) (w : World) : World :=
  match steps with
  | [] => w
  | (B, a) :: rest => run E rest (after E B a w)
  end.

(** The states the application can be in. *)
Definition reachable (E : Engine) (w : World) : Prop :=
  ∃ storage defaultTab steps, w = run E steps (initial storage defaultTab).

(** The declared type [User | null] of the [user] cell: [null] or an
    object. *)
Definition User_or_null (v : JVal) : bool :=
  match v with
  | JNull => true
  | _ => is_object v
  end.

(** A step in which the collaborators and the callers respect the
    declared types: responses carry a [user] object, the session lookup
    resolves to a [User] or [null], and [updateUser] receives a [User]. *)
Definition typed_step (step : Backend * Action) : Prop :=
  (∀ url body d, post_outcome step.1 url body = Resolved d →
     is_object (own_prop d (js "user")) = true) ∧
  (∀ v, getCurrentUser_outcome step.1 = Fulfilled v → User_or_null v = true) ∧
  (∀ u, step.2 = DoUpdateUser u → is_object u = true).

(** ** Sample surroundings, for the examples *)

Definition sample_engine : Engine := {|
  Number_toString := λ _, js "1";
  JSON_stringify_text := λ v, match v with JUndefined => None | _ => Some (js "{}") end;
  TypeError_message := λ _ k, js "Cannot read properties of undefined (reading '" ++ k ++ js "')";
  ToString_error_message := λ _, js "Cannot convert object to primitive value"
|}.

(** Collaborators that end every call as [o]; the mock service rejects
    with the error object of [o]. *)
Definition answering (o : Outcome) : Backend := {|
  post_outcome := λ _ _, o;
  getCurrentUser_outcome :=
    match o with Resolved v => Fulfilled v | Rejected error => Failed (JObj error) end;
  logout_outcome :=
    match o with Resolved v => Fulfilled v | Rejected error => Failed (JObj error) end
|}.

(** Collaborators whose every call fails, the mock service rejecting
    with [reason]. *)
Definition failing_with (reason : JVal) : Backend := {|
  post_outcome := λ _ _, Rejected [];
  getCurrentUser_outcome := Failed reason;
  logout_outcome := Failed reason
|}.

(** [{ toString: 1 }]: an object that ToString cannot convert. *)
Definition unprintable : JVal := JObj [(js "toString", JNum (Finite false 1 0))].

(** Responses whose token, respectively user name, cannot be converted to
    a string. *)
Definition unprintable_token_response : JVal :=
  JObj [(js "token", unprintable)].
Definition unprintable_name_response : JVal :=
  JObj [(js "token", JStr (js "t1")); (js "user", JObj [(js "username", unprintable)])].

(** [{ id: 1, username: "ash" }] *)
Definition ash : JVal :=
  JObj [(js "id", JNum (Finite false 1 0)); (js "username", JStr (js "ash"))].

(** Responses: without a token, with a token only, as expected, and with
    a [user] that is not an object. *)
Definition no_token_response : JVal := JObj [(js "user", ash)].
Definition token_only_response : JVal := JObj [(js "token", JStr (js "t1"))].
Definition full_response : JVal := JObj [(js "token", JStr (js "t1")); (js "user", ash)].
Definition odd_user_response : JVal :=
  JObj [(js "token", JStr (js "t1")); (js "user", JBool false)].

(** The error object of a failed request. *)
Definition network_error : list (jsstring * JVal) :=
  [(js "message", JStr (js "Network Error"))].

(** [{ email: "ash@pallet.town", password: "pikachu" }] *)
Definition ash_credentials : JVal :=
  JObj [(js "email", JStr (js "ash@pallet.town")); (js "password", JStr (js "pikachu"))].

(** The first render of a dialog opened on the login tab, in a browser
    with an empty storage. *)
Definition first_render : World := initial ∅ TabLogin.

(** A session in which ash is logged in. *)
Definition logged_in : World :=
  mkWorld ash false ∅ TabLogin (LoginForm.mk [] []) (RegisterForm.mk [] [] [] []) ∅ JNull [].

(** A dialog whose login form lacks the password and whose register form
    lacks the user name. *)
Definition half_filled : World :=
  mkWorld JNull false ∅ TabLogin (LoginForm.mk (js "ash@pallet.town") [])
    (RegisterForm.mk [] (js "ash@pallet.town") (js "pikachu") (js "pikachu")) ∅ JNull [].

(** ** Vocabulary of the statements *)

(** The events an operation added to the log. *)
Definition added (w w' : World) (evs : list Event) : Prop :=
  events w' = events w ++ evs.

(** [w] after the provider's cells and the storage changed and [evs]
    happened; the cells of the dialog are as they were. *)
Definition with_provider (w : World) (u : JVal) (loading : bool)
    (storage : gmap jsstring jsstring) (evs : list Event) : World :=
  mkWorld u loading storage (activeTab w) (loginForm w) (registerForm w)
    (formErrors w) (serverError w) (events w ++ evs).

(** [w] after the dialog's error cells changed and [evs] happened. *)
Definition with_errors (w : World) (errors : gmap jsstring jsstring) (server : JVal)
    (evs : list Event) : World :=
  mkWorld (user w) (isLoading w) (localStorage w) (activeTab w) (loginForm w)
    (registerForm w) errors server (events w ++ evs).

(** The toast of the [catch] block of [login]. *)
Definition login_failed_toast (error : JVal) : Event :=
  EvToast {| title := js "Login failed";
             description := js_or (own_prop error (js "message"))
                              (JStr (js "An error occurred during login"));
             variant := Some (js "destructive") |}.

(** The toasts of the [catch] blocks of [register] and [logout]. *)
Definition register_failed_toast (error : JVal) : Event :=
  EvToast {| title := js "Registration failed";
             description := js_or (own_prop error (js "message"))
                              (JStr (js "An error occurred during registration"));
             variant := Some (js "destructive") |}.

Definition logout_failed_toast (error : JVal) : Event :=
  EvToast {| title := js "Logout failed";
             description := js_or (own_prop error (js "message"))
                              (JStr (js "An error occurred during logout"));
             variant := Some (js "destructive") |}.

(** The response passes [if (!res.data.token)]. *)
Definition token_check_passes (d : JVal) : bool :=
  negb (nullish d) && truthy (own_prop d (js "token")).

(** A toast of the failure kind. *)
Definition is_failure_toast (ev : Event) : bool :=
  match ev with
  | EvToast t => bool_decide (variant t = Some (js "destructive"))
  | _ => false
  end.


(** A write to the storage. *)
Definition is_storage_write (ev : Event) : bool :=
  match ev with
  | EvSetItem _ _ => true
  | _ => false
  end.

(** An adoption of a user. *)
Definition is_set_user (ev : Event) : bool :=
  match ev with
  | EvSetUser _ => true
  | _ => false
  end.

(** A notification, of either kind. *)
Definition is_toast (ev : Event) : bool :=
  match ev with
  | EvToast _ => true
  | _ => false
  end.

(** A write to a key other than [key]. *)
Definition writes_other_than (key : jsstring) (ev : Event) : bool :=
  match ev with
  | EvSetItem k _ => bool_decide (k ≠ key)
  | _ => false
  end.

(** The submit handlers leave the field values and the active tab alone,
    set the error map to the verdict on their own form, and change the
    user only through [login] or [register]. *)
Definition submit_frame (B : Backend) (url : jsstring) (errors : gmap jsstring jsstring)
    (w w' : World) : Prop :=
  activeTab w' = activeTab w ∧
  loginForm w' = loginForm w ∧
  registerForm w' = registerForm w ∧
  formErrors w' = errors ∧
  (user w' = user w ∨
   ∃ credentials d,
     post_outcome B url credentials = Resolved d ∧ user w' = own_prop d (js "user")).

(** A call that leaves the browser. *)
Definition is_network_call (ev : Event) : bool :=
  match ev with
  | EvPost _ _ _ | EvGetCurrentUser | EvLogout => true
  | _ => false
  end.

(** Dialogs whose login form, respectively register form, is filled in
    validly. *)
Definition filled_login : World :=
  mkWorld JNull false ∅ TabLogin (LoginForm.mk (js "ash@pallet.town") (js "pikachu"))
    (RegisterForm.mk [] [] [] []) ∅ JNull [].

Definition filled_register : World :=
  mkWorld JNull false ∅ TabRegister (LoginForm.mk [] [])
    (RegisterForm.mk (js "ash") (js "ash@pallet.town") (js "pikachu") (js "pikachu"))
    ∅ JNull [].

(** A session in which ash is logged in and the token is stored. *)
Definition session_with_token : World :=
  mkWorld ash false {[ js "token" := js "t1" ]} TabLogin (LoginForm.mk [] [])
    (RegisterForm.mk [] [] [] []) ∅ JNull [].

(** An error object as axios builds it for a 401 answer with a body. *)
Definition unauthorized_error : list (jsstring * JVal) :=
  [(js "message", JStr (js "Request failed with status code 401"));
   (js "response",
    JObj [(js "status", JNum (Finite false 401 0));
          (js "data", JObj [(js "error", JStr (js "Invalid credentials"))])])].

(** ** Vocabulary of the further properties *)

(** The credentials that the submit handlers build from the forms. *)
Definition login_body (f : LoginForm.t) : JVal :=
  JObj [(js "email", JStr (LoginForm.email f));
        (js "password", JStr (LoginForm.password f))].

Definition register_body (f : RegisterForm.t) : JVal :=
  JObj [(js "username", JStr (RegisterForm.username f));
        (js "email", JStr (RegisterForm.email f));
        (js "password", JStr (RegisterForm.password f))].

(** The value of [error.response?.data?.[key]] for an [error] that is
    neither [null] nor [undefined]: a property read on anything that is
    not an object yields [undefined], and so does [?.] on [null]. *)
Definition server_message (error : JVal) (key : jsstring) : JVal :=
  own_prop (own_prop (own_prop error (js "response")) (js "data")) key.

(** The response lets [login] run to its end: it passes the token check,
    the token can be stored as a string, there is a user to read the name
    of, and that name can be put into the toast. *)
Definition login_response_ok (d : JVal) : bool :=
  token_check_passes d &&
  can_convert (own_prop d (js "token")) &&
  negb (nullish (own_prop d (js "user"))) &&
  can_convert (own_prop (own_prop d (js "user")) (js "username")).

(** The same for [register], which asks for no token. *)
Definition register_response_ok (d : JVal) : bool :=
  negb (nullish d) &&
  negb (nullish (own_prop d (js "user"))) &&
  can_convert (own_prop (own_prop d (js "user")) (js "username")).

(** The fallbacks of the inline message. *)
Definition login_fallback : JVal := JStr (js "Login failed. Please try again.").
Definition register_fallback : JVal :=
  JStr (js "Registration failed. Try a different email.").

(** How many of the events satisfy [p]. *)
Definition count (p : Event → bool) (evs : list Event) : nat :=
  List.length (List.filter p evs).

Definition is_set_loading (ev : Event) : bool :=
  match ev with
  | EvSetIsLoading _ => true
  | _ => false
  end.

Definition is_close (ev : Event) : bool :=
  match ev with
  | EvOnClose => true
  | _ => false
  end.



(** An effect on the provider or beyond the dialog: anything but the
    dialog's own state setters and [preventDefault]. *)
Definition leaves_dialog (ev : Event) : bool :=
  match ev with
  | EvPreventDefault | EvSetActiveTab _ | EvSetLoginForm _ | EvSetRegisterForm _
  | EvSetFormErrors _ | EvSetServerError _ => false
  | _ => true
  end.

(* ===================================================================== *)
(** * Part II: properties *)
(* ===================================================================== *)

(** ** The regular expression engine computes the language *)

Section RegexEngine.
Implicit Types (r : regex) (s : jsstring) (c : N).

Lemma matches_nil_nullable r : matches r [] → nullable r = true.
Proof.
  intros Hm. remember (@nil N) as s eqn:Hs.
  induction Hm as [|p c Hp|r1 r2 s1 s2 _ IH1 _ IH2|r1 r2 s _ IH|r1 r2 s _ IH
                  |r|r s1 s2 _ _ _ _|r s1 s2 _ IH1 _ _]; simpl; try done.
  - apply app_eq_nil in Hs as [-> ->]. by rewrite IH1, IH2.
  - by rewrite IH.
  - rewrite IH by done. by destruct (nullable r1).
  - apply app_eq_nil in Hs as [-> ->]. auto.
Qed.

Lemma nullable_matches_nil r : nullable r = true → matches r [].
Proof.
  induction r as [| |p|r1 IH1 r2 IH2|r1 IH1 r2 IH2|r IH|r IH]; simpl; intros Hn;
    try done.
  - constructor.
  - apply andb_true_iff in Hn as [H1 H2].
    change (@nil N) with (@nil N ++ @nil N). constructor; auto.
  - apply orb_true_iff in Hn as [H|H]; [apply m_alt_l|apply m_alt_r]; auto.
  - constructor.
  - change (@nil N) with (@nil N ++ @nil N). constructor; [auto|constructor].
Qed.

(** A non-empty match of a star starts with a non-empty match of its body. *)
Lemma matches_star_cons_inv r c s :
  matches (Star r) (c :: s) →
  ∃ s1 s2, s = s1 ++ s2 ∧ matches r (c :: s1) ∧ matches (Star r) s2.
Proof.
  intros Hm. remember (Star r) as r' eqn:Hr. remember (c :: s) as t eqn:Ht.
  induction Hm as [| | | | | |r0 s1 s2 H1 _ H2 IH2|]; try discriminate.
  injection Hr as ->. destruct s1 as [|c1 s1]; simpl in Ht.
  - by apply IH2.
  - injection Ht as -> <-. eauto.
Qed.

Lemma matches_char_inv p s : matches (CharSet p) s → ∃ c, s = [c] ∧ p c = true.
Proof. inversion 1; subst; eauto. Qed.

Lemma matches_cat_inv r1 r2 s :
  matches (Cat r1 r2) s → ∃ s1 s2, s = s1 ++ s2 ∧ matches r1 s1 ∧ matches r2 s2.
Proof. inversion 1; subst; eauto. Qed.

Lemma matches_alt_inv r1 r2 s : matches (Alt r1 r2) s → matches r1 s ∨ matches r2 s.
Proof. inversion 1; subst; eauto. Qed.

Lemma matches_plus_inv r s :
  matches (Plus r) s → ∃ s1 s2, s = s1 ++ s2 ∧ matches r s1 ∧ matches (Star r) s2.
Proof. inversion 1; subst; eauto. Qed.

Lemma deriv_sound c r s : matches (deriv c r) s → matches r (c :: s).
Proof.
  revert s. induction r as [| |p|r1 IH1 r2 IH2|r1 IH1 r2 IH2|r IH|r IH]; simpl; intros s Hm.
  - inversion Hm.
  - inversion Hm.
  - destruct (p c) eqn:Hp; inversion Hm; subst. by constructor.
  - assert (Hcat : ∀ t, matches (Cat (deriv c r1) r2) t → matches (Cat r1 r2) (c :: t)).
    { intros t (t1 & t2 & -> & Ht1 & Ht2)%matches_cat_inv.
      rewrite app_comm_cons. constructor; auto. }
    destruct (nullable r1) eqn:Hn; [|by apply Hcat].
    apply matches_alt_inv in Hm as [Hm|Hm]; [by apply Hcat|].
    change (c :: s) with ([] ++ c :: s).
    constructor; [by apply nullable_matches_nil|auto].
  - apply matches_alt_inv in Hm as [Hm|Hm]; [apply m_alt_l|apply m_alt_r]; auto.
  - apply matches_cat_inv in Hm as (s1 & s2 & -> & H1 & H2).
    rewrite app_comm_cons. apply m_star_cons; auto.
  - apply matches_cat_inv in Hm as (s1 & s2 & -> & H1 & H2).
    rewrite app_comm_cons. apply m_plus; auto.
Qed.

Lemma deriv_complete c r s : matches r (c :: s) → matches (deriv c r) s.
Proof.
  revert s. induction r as [| |p|r1 IH1 r2 IH2|r1 IH1 r2 IH2|r IH|r IH]; simpl; intros s Hm.
  - inversion Hm.
  - inversion Hm.
  - apply matches_char_inv in Hm as (c' & [= -> ->] & Hp). rewrite Hp. constructor.
  - apply matches_cat_inv in Hm as (s1 & s2 & Heq & H1 & H2).
    destruct s1 as [|c1 s1]; simpl in Heq.
    + subst s2. rewrite (matches_nil_nullable _ H1). apply m_alt_r; auto.
    + injection Heq as -> ->.
      assert (matches (Cat (deriv c1 r1) r2) (s1 ++ s2)) by (constructor; auto).
      destruct (nullable r1); [by apply m_alt_l|done].
  - apply matches_alt_inv in Hm as [Hm|Hm]; [apply m_alt_l|apply m_alt_r]; auto.
  - apply matches_star_cons_inv in Hm as (s1 & s2 & -> & H1 & H2).
    constructor; auto.
  - apply matches_plus_inv in Hm as (s1 & s2 & Heq & H1 & H2).
    destruct s1 as [|c1 s1]; simpl in Heq.
    + subst s2. apply matches_star_cons_inv in H2 as (t1 & t2 & -> & Ht1 & Ht2).
      constructor; auto.
    + injection Heq as -> ->. constructor; auto.
Qed.

Lemma match_here_spec r s :
  match_here r s = true ↔ ∃ m rest, s = m ++ rest ∧ matches r m.
Proof.
  revert r. induction s as [|c s IH]; intros r; simpl.
  - rewrite orb_false_r. split.
    + intros Hn. exists [], []. split; [done|by apply nullable_matches_nil].
    + intros (m & rest & Heq & Hm). symmetry in Heq.
      apply app_eq_nil in Heq as [-> _]. by apply matches_nil_nullable.
  - rewrite orb_true_iff, IH. split.
    + intros [Hn|(m & rest & -> & Hm)].
      * exists [], (c :: s). split; [done|by apply nullable_matches_nil].
      * exists (c :: m), rest. split; [done|by apply deriv_sound].
    + intros (m & rest & Heq & Hm). destruct m as [|c' m]; simpl in Heq.
      * left. by apply matches_nil_nullable.
      * injection Heq as <- ->. right. exists m, rest.
        split; [done|by apply deriv_complete].
Qed.

Lemma regex_test_nil r : regex_test r [] = match_here r [].
Proof. unfold regex_test. apply orb_false_r. Qed.

Lemma regex_test_cons r c s :
  regex_test r (c :: s) = match_here r (c :: s) || regex_test r s.
Proof. reflexivity. Qed.

(** [test] answers whether some substring is in the language. *)
Lemma regex_test_spec r s :
  regex_test r s = true ↔ ∃ pre m post, s = pre ++ m ++ post ∧ matches r m.
Proof.
  induction s as [|c s IH].
  - rewrite regex_test_nil, match_here_spec. split.
    + intros (m & rest & Heq & Hm). by exists [], m, rest.
    + intros (pre & m & post & Heq & Hm). symmetry in Heq.
      apply app_eq_nil in Heq as [-> Heq]. exists m, post. by rewrite Heq.
  - rewrite regex_test_cons, orb_true_iff, IH, match_here_spec. split.
    + intros [(m & rest & Heq & Hm)|(pre & m & post & -> & Hm)].
      * by exists [], m, rest.
      * by exists (c :: pre), m, post.
    + intros (pre & m & post & Heq & Hm). destruct pre as [|c' pre]; simpl in Heq.
      * left. by exists m, post.
      * injection Heq as <- ->. right. by exists pre, m, post.
Qed.

End RegexEngine.

(** ** The e-mail pattern *)

Lemma matches_Lit a s : matches (Lit a) s ↔ s = [N_of_ascii a].
Proof.
  split.
  - intros (c & -> & Hc)%matches_char_inv. apply N.eqb_eq in Hc. by subst.
  - intros ->. constructor. apply N.eqb_refl.
Qed.

Lemma matches_NotSpace s : matches NotSpace s ↔ ∃ c, s = [c] ∧ is_space c = false.
Proof.
  split.
  - intros (c & -> & Hc)%matches_char_inv. exists c. by apply negb_true_iff in Hc.
  - intros (c & -> & Hc). constructor. by apply negb_true_iff.
Qed.

Lemma matches_star_NotSpace t :
  matches (Star NotSpace) t ↔ Forall (λ c, is_space c = false) t.
Proof.
  split.
  - intros Hm. remember (Star NotSpace) as r eqn:Hr.
    induction Hm as [| | | | | |r s1 s2 H1 _ _ IH2|]; try discriminate; [constructor|].
    injection Hr as ->. apply matches_NotSpace in H1 as (c & -> & Hc).
    constructor; auto.
  - induction 1 as [|c t Hc _ IH]; [constructor|].
    change (c :: t) with ([c] ++ t). apply m_star_cons; [|done].
    apply matches_NotSpace. eauto.
Qed.

Lemma matches_plus_NotSpace t : matches (Plus NotSpace) t ↔ text t.
Proof.
  unfold text. split.
  - intros (s1 & s2 & -> & (c & -> & Hc)%matches_NotSpace & H2%matches_star_NotSpace)%matches_plus_inv.
    split; [done|]. constructor; auto.
  - intros [Hne Hall]. destruct Hall as [|c t Hc Hall]; [done|].
    change (c :: t) with ([c] ++ t). constructor.
    + apply matches_NotSpace. eauto.
    + by apply matches_star_NotSpace.
Qed.

Lemma email_pattern_matches m :
  matches email_pattern m ↔
  ∃ a b c, m = a ++ js "@" ++ b ++ js "." ++ c ∧ text a ∧ text b ∧ text c.
Proof.
  unfold email_pattern. split.
  - intros (a & m1 & -> & Ha%matches_plus_NotSpace & H1)%matches_cat_inv.
    apply matches_cat_inv in H1 as (at_ & m2 & -> & ->%matches_Lit & H2).
    apply matches_cat_inv in H2 as (b & m3 & -> & Hb%matches_plus_NotSpace & H3).
    apply matches_cat_inv in H3 as (dot & c & -> & ->%matches_Lit & Hc%matches_plus_NotSpace).
    by exists a, b, c.
  - intros (a & b & c & -> & Ha & Hb & Hc).
    constructor; [by apply matches_plus_NotSpace|].
    constructor; [by apply matches_Lit|].
    constructor; [by apply matches_plus_NotSpace|].
    constructor; [by apply matches_Lit|by apply matches_plus_NotSpace].
Qed.

(** [/\S+@\S+\.\S+/.test(s)] holds exactly of the inputs that contain the
    shape [text@text.text]. *)
Lemma email_pattern_test s :
  regex_test email_pattern s = true ↔ text_at_text_dot_text s.
Proof.
  rewrite regex_test_spec. unfold text_at_text_dot_text. split.
  - intros (pre & m & post & -> & (a & b & c & -> & Ha & Hb & Hc)%email_pattern_matches).
    exists pre, a, b, c, post. split; [|done].
    by rewrite <- !app_assoc.
  - intros (pre & a & b & c & post & -> & Ha & Hb & Hc).
    exists pre, (a ++ js "@" ++ b ++ js "." ++ c), post. split.
    + by rewrite <- !app_assoc.
    + apply email_pattern_matches. by exists a, b, c.
Qed.

Example email_not_an_email : regex_test email_pattern (js "not-an-email") = false.
Proof. reflexivity. Qed.

Example email_a_b_com : regex_test email_pattern (js "a@b.com") = true.
Proof. reflexivity. Qed.

Example email_embedded : regex_test email_pattern (js "to: a@b.c (home)") = true.
Proof. reflexivity. Qed.

(** ** Validation *)

Lemma truthy_JStr_false s : truthy (JStr s) = false ↔ s = [].
Proof. by destruct s. Qed.

Lemma truthy_JStr_true s : truthy (JStr s) = true ↔ s ≠ [].
Proof. by destruct s. Qed.

Lemma Object_keys_empty (o : gmap jsstring jsstring) :
  List.length (Object_keys o) = 0%nat ↔ o = ∅.
Proof.
  unfold Object_keys. rewrite length_fmap, length_map_to_list.
  apply map_size_empty_iff.
Qed.

Ltac lookup_errors :=
  repeat first
    [ rewrite lookup_insert_eq
    | rewrite lookup_insert_ne by discriminate
    | rewrite lookup_empty ].

Lemma validateLoginForm_email f :
  validateLoginForm f !! js "email" =
  if truthy (JStr (LoginForm.email f)) then None else Some (js "Email is required").
Proof.
  unfold validateLoginForm.
  destruct (truthy (JStr (LoginForm.email f))), (truthy (JStr (LoginForm.password f)));
    simpl; by lookup_errors.
Qed.

Lemma validateLoginForm_password f :
  validateLoginForm f !! js "password" =
  if truthy (JStr (LoginForm.password f)) then None else Some (js "Password is required").
Proof.
  unfold validateLoginForm.
  destruct (truthy (JStr (LoginForm.email f))), (truthy (JStr (LoginForm.password f)));
    simpl; by lookup_errors.
Qed.

Lemma validateLoginForm_other f k :
  k ≠ js "email" → k ≠ js "password" → validateLoginForm f !! k = None.
Proof.
  intros H1 H2. unfold validateLoginForm.
  destruct (truthy (JStr (LoginForm.email f))), (truthy (JStr (LoginForm.password f)));
    simpl; by rewrite ?lookup_insert_ne, lookup_empty by done.
Qed.

Ltac register_cases f :=
  unfold validateRegisterForm;
  destruct (truthy (JStr (RegisterForm.username f))),
           (truthy (JStr (RegisterForm.email f))),
           (regex_test email_pattern (RegisterForm.email f)),
           (truthy (JStr (RegisterForm.password f))),
           (List.length (RegisterForm.password f) <? 6)%nat,
           (bool_decide (RegisterForm.password f ≠ RegisterForm.confirmPassword f));
  simpl.

Lemma validateRegisterForm_username f :
  validateRegisterForm f !! js "username" =
  if truthy (JStr (RegisterForm.username f)) then None
  else Some (js "Username is required").
Proof. register_cases f; by lookup_errors. Qed.

Lemma validateRegisterForm_email f :
  validateRegisterForm f !! js "email" =
  if negb (truthy (JStr (RegisterForm.email f))) then Some (js "Email is required")
  else if negb (regex_test email_pattern (RegisterForm.email f))
  then Some (js "Invalid email") else None.
Proof. register_cases f; by lookup_errors. Qed.

Lemma validateRegisterForm_password f :
  validateRegisterForm f !! js "password" =
  if negb (truthy (JStr (RegisterForm.password f))) then Some (js "Password is required")
  else if (List.length (RegisterForm.password f) <? 6)%nat
  then Some (js "Password must be at least 6 characters") else None.
Proof. register_cases f; by lookup_errors. Qed.

Lemma validateRegisterForm_confirmPassword f :
  validateRegisterForm f !! js "confirmPassword" =
  if bool_decide (RegisterForm.password f ≠ RegisterForm.confirmPassword f)
  then Some (js "Passwords do not match") else None.
Proof. register_cases f; by lookup_errors. Qed.

Lemma validateRegisterForm_other f k :
  k ≠ js "username" → k ≠ js "email" → k ≠ js "password" → k ≠ js "confirmPassword" →
  validateRegisterForm f !! k = None.
Proof.
  intros H1 H2 H3 H4.
  register_cases f; by rewrite ?lookup_insert_ne, lookup_empty by done.
Qed.

(** When each rule of the register form is violated. *)
Lemma register_email_rule f :
  is_Some (validateRegisterForm f !! js "email") ↔
  RegisterForm.email f = [] ∨ ¬ text_at_text_dot_text (RegisterForm.email f).
Proof.
  rewrite validateRegisterForm_email, <- email_pattern_test.
  destruct (truthy (JStr (RegisterForm.email f))) eqn:Ht; cbn [negb].
  - apply truthy_JStr_true in Ht.
    destruct (regex_test email_pattern (RegisterForm.email f)); cbn [negb].
    + split; [by intros []|]. intros [|]; done.
    + split; [|by eauto]. intros _. by right.
  - apply truthy_JStr_false in Ht. split; [by left|by eauto].
Qed.

Lemma register_password_rule f :
  is_Some (validateRegisterForm f !! js "password") ↔
  RegisterForm.password f = [] ∨ (List.length (RegisterForm.password f) < 6)%nat.
Proof.
  rewrite validateRegisterForm_password.
  destruct (truthy (JStr (RegisterForm.password f))) eqn:Ht; cbn [negb].
  - apply truthy_JStr_true in Ht.
    destruct (Nat.ltb_spec (List.length (RegisterForm.password f)) 6).
    + split; [|by eauto]. intros _. by right.
    + split; [by intros []|]. intros [|]; [done|lia].
  - apply truthy_JStr_false in Ht. split; [by left|by eauto].
Qed.

Lemma register_confirmPassword_rule f :
  is_Some (validateRegisterForm f !! js "confirmPassword") ↔
  RegisterForm.confirmPassword f ≠ RegisterForm.password f.
Proof.
  rewrite validateRegisterForm_confirmPassword. case_bool_decide.
  - split; [|by eauto]. intros _. congruence.
  - split; [by intros []|]. intros Hne. destruct Hne. apply dec_stable. congruence.
Qed.

Lemma register_username_rule f :
  is_Some (validateRegisterForm f !! js "username") ↔ RegisterForm.username f = [].
Proof.
  rewrite validateRegisterForm_username.
  destruct (truthy (JStr (RegisterForm.username f))) eqn:Ht.
  - apply truthy_JStr_true in Ht. split; [by intros []|done].
  - apply truthy_JStr_false in Ht. split; [done|by eauto].
Qed.

(** C3. For every register form, validation puts an error under [email]
    exactly when the e-mail is empty or does not contain the shape
    [text@text.text], under [password] exactly when the password is empty
    or has fewer than 6 characters (UTF-16 code units, as [length] counts
    them), and under [confirmPassword] exactly when the confirmation
    differs from the password; and when the user name and e-mail are
    valid, the password is "abcdef" and the confirmation "abcdeg", the
    error map holds the [confirmPassword] error and nothing else. *)
Theorem validateRegisterForm_rules (f : RegisterForm.t) :
  (is_Some (validateRegisterForm f !! js "email") ↔
     RegisterForm.email f = [] ∨ ¬ text_at_text_dot_text (RegisterForm.email f)) ∧
  (is_Some (validateRegisterForm f !! js "password") ↔
     RegisterForm.password f = [] ∨ (List.length (RegisterForm.password f) < 6)%nat) ∧
  (is_Some (validateRegisterForm f !! js "confirmPassword") ↔
     RegisterForm.confirmPassword f ≠ RegisterForm.password f) ∧
  (RegisterForm.username f ≠ [] →
   text_at_text_dot_text (RegisterForm.email f) →
   RegisterForm.password f = js "abcdef" →
   RegisterForm.confirmPassword f = js "abcdeg" →
   validateRegisterForm f = {[ js "confirmPassword" := js "Passwords do not match" ]}).
Proof.
  split; [apply register_email_rule|].
  split; [apply register_password_rule|].
  split; [apply register_confirmPassword_rule|].
  intros Hu He Hp Hc. apply map_eq. intros k.
  destruct (decide (k = js "confirmPassword")) as [->|Hk4].
  { rewrite lookup_singleton_eq, validateRegisterForm_confirmPassword, Hp, Hc.
    reflexivity. }
  rewrite lookup_singleton_ne by done.
  apply eq_None_not_Some.
  destruct (decide (k = js "username")) as [->|Hk1].
  { rewrite register_username_rule. done. }
  destruct (decide (k = js "email")) as [->|Hk2].
  { rewrite register_email_rule. intros [Hnil|Hno]; [|done].
    destruct He as (pre & a & b & c & post & Heq & _). rewrite Hnil in Heq.
    apply (f_equal (@List.length N)) in Heq. rewrite !length_app in Heq. simpl in Heq. lia. }
  destruct (decide (k = js "password")) as [->|Hk3].
  { rewrite register_password_rule, Hp. intros [|Hlt]; [done|]. simpl in Hlt. lia. }
  rewrite validateRegisterForm_other by done. by intros [].
Qed.

Lemma validateRegisterForm_rules_witness :
  text_at_text_dot_text (js "a@b.com") ∧
  validateRegisterForm (RegisterForm.mk (js "ash") (js "a@b.com") (js "abcdef") (js "abcdeg"))
  = {[ js "confirmPassword" := js "Passwords do not match" ]}.
Proof.
  assert (Hshape : text_at_text_dot_text (js "a@b.com"))
    by (apply email_pattern_test; reflexivity).
  split; [exact Hshape|].
  apply (proj2 (proj2 (proj2 (validateRegisterForm_rules _))));
    [discriminate|exact Hshape|reflexivity|reflexivity].
Defined.

(** ** Running the operations

    One equation per path through each operation. *)

Lemma nullish_new_TypeError E v k : nullish (new_TypeError E v k) = false.
Proof. reflexivity. Qed.

Lemma nullish_new_Error m : nullish (new_Error m) = false.
Proof. reflexivity. Qed.

Lemma nullish_new_ToString_error E v : nullish (new_ToString_error E v) = false.
Proof. reflexivity. Qed.

(** What [JSON.stringify] returns can always be converted. *)
Lemma can_convert_JSON_stringify E v : can_convert (JSON_stringify E v) = true.
Proof. unfold JSON_stringify. by destruct (JSON_stringify_text E v). Qed.

(** Unfold the operations, then follow the path that the equations in
    the context select. *)
Ltac run_step :=
  first
    [ match goal with H : _ = _ |- _ => rewrite H end
    | rewrite nullish_new_TypeError
    | rewrite nullish_new_Error
    | rewrite nullish_new_ToString_error
    | rewrite can_convert_JSON_stringify
    | progress cbn [await await_settled nullish negb fst snd user isLoading localStorage
                    activeTab loginForm registerForm formErrors serverError events data]
    | progress cbv [throw mret M_ret] ].

Ltac run :=
  cbv [login register logout updateUser checkAuth handleLoginSubmit handleRegisterSubmit
       try_finally try_catch axios_post mockApiService_getCurrentUser
       mockApiService_logout setUser setIsLoading localStorage_setItem ToString setActiveTab
       setLoginForm setRegisterForm setFormErrors setServerError toast console_error
       preventDefault onClose emit modify gets throw get_prop get_prop_opt
       mbind M_bind mret M_ret with_provider with_errors];
  repeat run_step;
  rewrite <- ?app_assoc; cbn [app].

Ltac proj_simpl :=
  cbn [fst snd user isLoading localStorage activeTab loginForm registerForm formErrors
       serverError events].

Section LoginRuns.
Context (E : Engine) (B : Backend) (credentials : JVal) (w : World).

Lemma login_rejected error :
  post_outcome B login_url credentials = Rejected error →
  login E B credentials w =
  (Throw (JObj error),
   with_provider w (user w) false (localStorage w)
     [EvSetIsLoading true; EvPost login_url credentials true;
      login_failed_toast (JObj error); EvSetIsLoading false]).
Proof. intros H. run. reflexivity. Qed.

Lemma login_no_data d :
  post_outcome B login_url credentials = Resolved d →
  nullish d = true →
  login E B credentials w =
  (Throw (new_TypeError E d (js "token")),
   with_provider w (user w) false (localStorage w)
     [EvSetIsLoading true; EvPost login_url credentials true;
      login_failed_toast (new_TypeError E d (js "token")); EvSetIsLoading false]).
Proof. intros H Hd. run. reflexivity. Qed.

Lemma login_no_token d :
  post_outcome B login_url credentials = Resolved d →
  nullish d = false →
  truthy (own_prop d (js "token")) = false →
  login E B credentials w =
  (Throw (new_Error (js "Login failed. No token.")),
   with_provider w (user w) false (localStorage w)
     [EvSetIsLoading true; EvPost login_url credentials true;
      EvConsoleError [JStr (js "No token received:"); d];
      login_failed_toast (new_Error (js "Login failed. No token."));
      EvSetIsLoading false]).
Proof. intros H Hd Ht. run. reflexivity. Qed.

(** The token passes the check but [setItem] cannot convert it. *)
Lemma login_bad_token d :
  post_outcome B login_url credentials = Resolved d →
  nullish d = false →
  truthy (own_prop d (js "token")) = true →
  can_convert (own_prop d (js "token")) = false →
  login E B credentials w =
  (Throw (new_ToString_error E (own_prop d (js "token"))),
   with_provider w (user w) false (localStorage w)
     [EvSetIsLoading true; EvPost login_url credentials true;
      login_failed_toast (new_ToString_error E (own_prop d (js "token")));
      EvSetIsLoading false]).
Proof. intros H Hd Ht Hc. run. reflexivity. Qed.

Lemma login_no_user d :
  post_outcome B login_url credentials = Resolved d →
  nullish d = false →
  truthy (own_prop d (js "token")) = true →
  can_convert (own_prop d (js "token")) = true →
  nullish (own_prop d (js "user")) = true →
  login E B credentials w =
  (Throw (new_TypeError E (own_prop d (js "user")) (js "username")),
   with_provider w (own_prop d (js "user")) false
     (<[js "token" := to_string E (own_prop d (js "token"))]> (localStorage w))
     [EvSetIsLoading true; EvPost login_url credentials true;
      EvSetItem (js "token") (to_string E (own_prop d (js "token")));
      EvSetUser (own_prop d (js "user"));
      login_failed_toast (new_TypeError E (own_prop d (js "user")) (js "username"));
      EvSetIsLoading false]).
Proof. intros H Hd Ht Hc Hu. run. reflexivity. Qed.

(** Token and user are adopted but the template literal of the toast
    cannot convert the user name. *)
Lemma login_bad_name d :
  post_outcome B login_url credentials = Resolved d →
  nullish d = false →
  truthy (own_prop d (js "token")) = true →
  can_convert (own_prop d (js "token")) = true →
  nullish (own_prop d (js "user")) = false →
  can_convert (own_prop (own_prop d (js "user")) (js "username")) = false →
  login E B credentials w =
  (Throw (new_ToString_error E (own_prop (own_prop d (js "user")) (js "username"))),
   with_provider w (own_prop d (js "user")) false
     (<[js "token" := to_string E (own_prop d (js "token"))]> (localStorage w))
     [EvSetIsLoading true; EvPost login_url credentials true;
      EvSetItem (js "token") (to_string E (own_prop d (js "token")));
      EvSetUser (own_prop d (js "user"));
      login_failed_toast
        (new_ToString_error E (own_prop (own_prop d (js "user")) (js "username")));
      EvSetIsLoading false]).
Proof. intros H Hd Ht Hc Hu Hn. run. reflexivity. Qed.

Lemma login_success d :
  post_outcome B login_url credentials = Resolved d →
  nullish d = false →
  truthy (own_prop d (js "token")) = true →
  can_convert (own_prop d (js "token")) = true →
  nullish (own_prop d (js "user")) = false →
  can_convert (own_prop (own_prop d (js "user")) (js "username")) = true →
  login E B credentials w =
  (Ok (),
   with_provider w (own_prop d (js "user")) false
     (<[js "token" := to_string E (own_prop d (js "token"))]> (localStorage w))
     [EvSetIsLoading true; EvPost login_url credentials true;
      EvSetItem (js "token") (to_string E (own_prop d (js "token")));
      EvSetUser (own_prop d (js "user"));
      EvToast {| title := js "Welcome back!";
                 description :=
                   JStr (js "Logged in as " ++
                         to_string E (own_prop (own_prop d (js "user")) (js "username")));
                 variant := None |};
      EvSetIsLoading false]).
Proof. intros H Hd Ht Hc Hu Hn. run. reflexivity. Qed.

End LoginRuns.

Section RegisterRuns.
Context (E : Engine) (B : Backend) (credentials : JVal) (w : World).

Lemma register_rejected error :
  post_outcome B register_url credentials = Rejected error →
  register E B credentials w =
  (Throw (JObj error),
   with_provider w (user w) false (localStorage w)
     [EvSetIsLoading true; EvPost register_url credentials false;
      register_failed_toast (JObj error); EvSetIsLoading false]).
Proof. intros H. run. reflexivity. Qed.

Lemma register_no_data d :
  post_outcome B register_url credentials = Resolved d →
  nullish d = true →
  register E B credentials w =
  (Throw (new_TypeError E d (js "user")),
   with_provider w (user w) false (localStorage w)
     [EvSetIsLoading true; EvPost register_url credentials false;
      register_failed_toast (new_TypeError E d (js "user")); EvSetIsLoading false]).
Proof. intros H Hd. run. reflexivity. Qed.

Lemma register_no_user d :
  post_outcome B register_url credentials = Resolved d →
  nullish d = false →
  nullish (own_prop d (js "user")) = true →
  register E B credentials w =
  (Throw (new_TypeError E (own_prop d (js "user")) (js "username")),
   with_provider w (own_prop d (js "user")) false (localStorage w)
     [EvSetIsLoading true; EvPost register_url credentials false;
      EvSetUser (own_prop d (js "user"));
      register_failed_toast (new_TypeError E (own_prop d (js "user")) (js "username"));
      EvSetIsLoading false]).
Proof. intros H Hd Hu. run. reflexivity. Qed.

(** The user is adopted but the template literal of the toast cannot
    convert the user name. *)
Lemma register_bad_name d :
  post_outcome B register_url credentials = Resolved d →
  nullish d = false →
  nullish (own_prop d (js "user")) = false →
  can_convert (own_prop (own_prop d (js "user")) (js "username")) = false →
  register E B credentials w =
  (Throw (new_ToString_error E (own_prop (own_prop d (js "user")) (js "username"))),
   with_provider w (own_prop d (js "user")) false (localStorage w)
     [EvSetIsLoading true; EvPost register_url credentials false;
      EvSetUser (own_prop d (js "user"));
      register_failed_toast
        (new_ToString_error E (own_prop (own_prop d (js "user")) (js "username")));
      EvSetIsLoading false]).
Proof. intros H Hd Hu Hn. run. reflexivity. Qed.

Lemma register_success d :
  post_outcome B register_url credentials = Resolved d →
  nullish d = false →
  nullish (own_prop d (js "user")) = false →
  can_convert (own_prop (own_prop d (js "user")) (js "username")) = true →
  register E B credentials w =
  (Ok (),
   with_provider w (own_prop d (js "user")) false (localStorage w)
     [EvSetIsLoading true; EvPost register_url credentials false;
      EvSetUser (own_prop d (js "user"));
      EvToast {| title := js "Registration successful!";
                 description :=
                   JStr (js "Welcome, " ++
                         to_string E (own_prop (own_prop d (js "user")) (js "username")) ++
                         js "!");
                 variant := None |};
      EvSetIsLoading false]).
Proof. intros H Hd Hu Hn. run. reflexivity. Qed.

End RegisterRuns.

Section OtherRuns.
Context (E : Engine) (B : Backend) (w : World).

Lemma logout_resolved v :
  logout_outcome B = Fulfilled v →
  logout E B w =
  (Ok (),
   with_provider w JNull (isLoading w) (localStorage w)
     [EvLogout; EvSetUser JNull;
      EvToast {| title := js "Logged out";
                 description := JStr (js "You have been successfully logged out");
                 variant := None |}]).
Proof. intros H. run. reflexivity. Qed.

Lemma logout_rejected reason :
  logout_outcome B = Failed reason →
  nullish reason = false →
  logout E B w =
  (Ok (),
   with_provider w (user w) (isLoading w) (localStorage w)
     [EvLogout; logout_failed_toast reason]).
Proof. intros H Hr. run. reflexivity. Qed.

(** The rejection value is [null] or [undefined]: reading its [message]
    in the [catch] block throws. *)
Lemma logout_rejected_nullish reason :
  logout_outcome B = Failed reason →
  nullish reason = true →
  logout E B w =
  (Throw (new_TypeError E reason (js "message")),
   with_provider w (user w) (isLoading w) (localStorage w) [EvLogout]).
Proof. intros H Hr. run. reflexivity. Qed.

Lemma updateUser_run updatedUser :
  updateUser E updatedUser w =
  (Ok (),
   with_provider w updatedUser (isLoading w)
     (<[js "user" := to_string E (JSON_stringify E updatedUser)]> (localStorage w))
     [EvSetUser updatedUser;
      EvSetItem (js "user") (to_string E (JSON_stringify E updatedUser))]).
Proof. run. reflexivity. Qed.

Lemma checkAuth_resolved currentUser :
  getCurrentUser_outcome B = Fulfilled currentUser →
  checkAuth B w =
  (Ok (),
   with_provider w currentUser false (localStorage w)
     [EvGetCurrentUser; EvSetUser currentUser; EvSetIsLoading false]).
Proof. intros H. run. reflexivity. Qed.

Lemma checkAuth_rejected reason :
  getCurrentUser_outcome B = Failed reason →
  checkAuth B w =
  (Ok (),
   with_provider w (user w) false (localStorage w)
     [EvGetCurrentUser;
      EvConsoleError [JStr (js "Auth check failed:"); reason];
      EvSetIsLoading false]).
Proof. intros H. run. reflexivity. Qed.

End OtherRuns.

(** ** Login *)

Lemma has_field_false_own_prop d k : has_field d k = false → own_prop d k = JUndefined.
Proof.
  destruct d as [| | | | | |props]; try done. simpl. intros H.
  apply bool_decide_eq_false in H.
  destruct (lookup_prop k props); [|done]. destruct H. eauto.
Qed.

(** A response without a [token] field does not pass the token check. *)
Lemma lacks_token_fails_check d :
  has_field d (js "token") = false → token_check_passes d = false.
Proof.
  intros H. unfold token_check_passes.
  rewrite (has_field_false_own_prop _ _ H). apply andb_false_r.
Qed.

Ltac find_event :=
  repeat first [ by apply Exists_cons_hd | apply Exists_cons_tl ].

(** C1. When the login request succeeds but its response has no [token]
    field, the login fails all the same: the returned promise rejects,
    nothing is written to the storage, and a failure toast is emitted. *)
Theorem login_without_token E B credentials w d :
  post_outcome B login_url credentials = Resolved d →
  has_field d (js "token") = false →
  ∃ evs,
    rejects (login E B credentials w).1 = true ∧
    added w (login E B credentials w).2 evs ∧
    Forall (λ ev, is_storage_write ev = false) evs ∧
    localStorage (login E B credentials w).2 = localStorage w ∧
    Exists (λ ev, is_failure_toast ev = true) evs.
Proof.
  intros Hpost Hfield. destruct (nullish d) eqn:Hd.
  - rewrite (login_no_data E B credentials w d Hpost Hd).
    eexists. repeat split; [repeat constructor|find_event].
  - apply has_field_false_own_prop in Hfield.
    rewrite (login_no_token E B credentials w d Hpost Hd)
      by (by rewrite Hfield).
    eexists. repeat split; [repeat constructor|find_event].
Qed.

Lemma login_without_token_witness :
  ∃ evs,
    rejects (login sample_engine (answering (Resolved no_token_response))
               ash_credentials first_render).1 = true ∧
    added first_render
      (login sample_engine (answering (Resolved no_token_response))
         ash_credentials first_render).2 evs ∧
    Forall (λ ev, is_storage_write ev = false) evs ∧
    localStorage
      (login sample_engine (answering (Resolved no_token_response))
         ash_credentials first_render).2 = localStorage first_render ∧
    Exists (λ ev, is_failure_toast ev = true) evs.
Proof.
  apply (login_without_token sample_engine (answering (Resolved no_token_response))
           ash_credentials first_render no_token_response);
    reflexivity.
Defined.

Lemma token_check_passes_inv d :
  token_check_passes d = true →
  nullish d = false ∧ truthy (own_prop d (js "token")) = true.
Proof.
  unfold token_check_passes. intros [H1 H2]%andb_true_iff.
  by apply negb_true_iff in H1.
Qed.

Lemma token_check_fails_inv d :
  token_check_passes d = false →
  nullish d = true ∨ (nullish d = false ∧ truthy (own_prop d (js "token")) = false).
Proof.
  unfold token_check_passes. destruct (nullish d); simpl; auto.
Qed.

(** C9, as the claim states it, fails: the response [{ token: { toString: 1 } }]
    contains a token that passes the token check, but [setItem] cannot
    convert it to a string and throws; nothing is stored, no user is
    adopted, and the login rejects. *)
Lemma login_unprintable_token_not_stored :
  token_check_passes unprintable_token_response = true ∧
  rejects (login sample_engine (answering (Resolved unprintable_token_response))
             ash_credentials first_render).1 = true ∧
  localStorage (login sample_engine (answering (Resolved unprintable_token_response))
                  ash_credentials first_render).2 !! js "token" = None ∧
  events (login sample_engine (answering (Resolved unprintable_token_response))
            ash_credentials first_render).2 =
    [EvSetIsLoading true; EvPost login_url ash_credentials true;
     login_failed_toast (new_ToString_error sample_engine unprintable);
     EvSetIsLoading false].
Proof. repeat split. Qed.

(** C9, amended.  When the response carries a token that passes the
    check and can be converted to a string, the token is written to the
    storage before the user of the response is adopted: the write is
    followed at once by the only [setUser] of the call.  So for such a
    response whose [user] is absent or [null], the token stays in the
    storage although the login then fails and its promise rejects.  When
    the token passes the check but cannot be converted to a string,
    [setItem] throws: the login rejects with nothing stored and no user
    adopted. *)
Theorem login_stores_token_before_user E B credentials w d :
  post_outcome B login_url credentials = Resolved d →
  token_check_passes d = true →
  let w' := (login E B credentials w).2 in
  let token := to_string E (own_prop d (js "token")) in
  (can_convert (own_prop d (js "token")) = true →
   (∃ before after,
      added w w' (before ++ EvSetItem (js "token") token ::
                            EvSetUser (own_prop d (js "user")) :: after) ∧
      Forall (λ ev, is_set_user ev = false) before ∧
      Forall (λ ev, is_set_user ev = false) after) ∧
   localStorage w' !! js "token" = Some token ∧
   (nullish (own_prop d (js "user")) = true →
    rejects (login E B credentials w).1 = true ∧
    localStorage w' !! js "token" = Some token)) ∧
  (can_convert (own_prop d (js "token")) = false →
   rejects (login E B credentials w).1 = true ∧
   localStorage w' = localStorage w ∧
   user w' = user w ∧
   ∃ evs, added w w' evs ∧
          Forall (λ ev, is_storage_write ev = false) evs ∧
          Forall (λ ev, is_set_user ev = false) evs).
Proof.
  intros Hpost [Hd Ht]%token_check_passes_inv. cbn zeta. split.
  - intros Hc.
    assert (Hshape : ∀ mid,
      ∃ before after,
        [EvSetIsLoading true; EvPost login_url credentials true;
         EvSetItem (js "token") (to_string E (own_prop d (js "token")));
         EvSetUser (own_prop d (js "user")); mid; EvSetIsLoading false] =
        before ++ EvSetItem (js "token") (to_string E (own_prop d (js "token"))) ::
                  EvSetUser (own_prop d (js "user")) :: after ∧
        (is_set_user mid = false →
         Forall (λ ev, is_set_user ev = false) before ∧
         Forall (λ ev, is_set_user ev = false) after)).
    { intros mid.
      exists [EvSetIsLoading true; EvPost login_url credentials true],
             [mid; EvSetIsLoading false].
      split; [reflexivity|]. intros Hmid. split; repeat constructor. exact Hmid. }
    destruct (nullish (own_prop d (js "user"))) eqn:Hu;
      [|destruct (can_convert (own_prop (own_prop d (js "user")) (js "username"))) eqn:Hn].
    + rewrite (login_no_user E B credentials w d Hpost Hd Ht Hc Hu).
      split; [|split; [apply lookup_insert_eq|]].
      * destruct (Hshape (login_failed_toast
                            (new_TypeError E (own_prop d (js "user")) (js "username"))))
          as (before & after & Heq & Hall).
        exists before, after. unfold added, with_provider. proj_simpl.
        rewrite Heq. split; [done|]. by apply Hall.
      * intros _. split; [done|apply lookup_insert_eq].
    + rewrite (login_success E B credentials w d Hpost Hd Ht Hc Hu Hn).
      split; [|split; [apply lookup_insert_eq|done]].
      match goal with |- context [EvToast ?t] =>
        destruct (Hshape (EvToast t)) as (before & after & Heq & Hall) end.
      exists before, after. unfold added, with_provider. proj_simpl.
      rewrite Heq. split; [done|]. by apply Hall.
    + rewrite (login_bad_name E B credentials w d Hpost Hd Ht Hc Hu Hn).
      split; [|split; [apply lookup_insert_eq|done]].
      destruct (Hshape (login_failed_toast
                          (new_ToString_error E
                             (own_prop (own_prop d (js "user")) (js "username")))))
        as (before & after & Heq & Hall).
      exists before, after. unfold added, with_provider. proj_simpl.
      rewrite Heq. split; [done|]. by apply Hall.
  - intros Hc. rewrite (login_bad_token E B credentials w d Hpost Hd Ht Hc).
    repeat split. eexists. split; [reflexivity|]. split; repeat constructor.
Qed.

Lemma login_stores_token_before_user_witness :
  token_check_passes token_only_response = true ∧
  can_convert (own_prop token_only_response (js "token")) = true ∧
  nullish (own_prop token_only_response (js "user")) = true ∧
  rejects (login sample_engine (answering (Resolved token_only_response)) ash_credentials
             first_render).1 = true ∧
  localStorage (login sample_engine (answering (Resolved token_only_response))
                  ash_credentials first_render).2 !! js "token" = Some (js "t1").
Proof.
  split; [reflexivity|]. split; [reflexivity|]. split; [reflexivity|].
  apply (proj1 (login_stores_token_before_user sample_engine
                  (answering (Resolved token_only_response))
                  ash_credentials first_render token_only_response eq_refl eq_refl));
    reflexivity.
Defined.

(** C10. A login whose request rejects or whose response does not pass
    the token check, and a registration whose request rejects, reject and
    leave the user exactly as it was: no [setUser] happens on these
    paths. *)
Theorem failed_calls_keep_user E B credentials w :
  (∀ error,
     post_outcome B login_url credentials = Rejected error →
     rejects (login E B credentials w).1 = true ∧
     user (login E B credentials w).2 = user w ∧
     ∃ evs, added w (login E B credentials w).2 evs ∧
            Forall (λ ev, is_set_user ev = false) evs) ∧
  (∀ d,
     post_outcome B login_url credentials = Resolved d →
     token_check_passes d = false →
     rejects (login E B credentials w).1 = true ∧
     user (login E B credentials w).2 = user w ∧
     ∃ evs, added w (login E B credentials w).2 evs ∧
            Forall (λ ev, is_set_user ev = false) evs) ∧
  (∀ error,
     post_outcome B register_url credentials = Rejected error →
     rejects (register E B credentials w).1 = true ∧
     user (register E B credentials w).2 = user w ∧
     ∃ evs, added w (register E B credentials w).2 evs ∧
            Forall (λ ev, is_set_user ev = false) evs).
Proof.
  split; [|split].
  - intros error Hpost. rewrite (login_rejected E B credentials w error Hpost).
    repeat split. eexists. split; [reflexivity|repeat constructor].
  - intros d Hpost [Hd|[Hd Ht]]%token_check_fails_inv.
    + rewrite (login_no_data E B credentials w d Hpost Hd).
      repeat split. eexists. split; [reflexivity|repeat constructor].
    + rewrite (login_no_token E B credentials w d Hpost Hd Ht).
      repeat split. eexists. split; [reflexivity|repeat constructor].
  - intros error Hpost. rewrite (register_rejected E B credentials w error Hpost).
    repeat split. eexists. split; [reflexivity|repeat constructor].
Qed.

Lemma failed_calls_keep_user_witness :
  (rejects (login sample_engine (answering (Rejected network_error))
              ash_credentials logged_in).1 = true ∧
   user (login sample_engine (answering (Rejected network_error))
           ash_credentials logged_in).2 = ash) ∧
  (rejects (register sample_engine (answering (Rejected network_error))
              ash_credentials logged_in).1 = true ∧
   user (register sample_engine (answering (Rejected network_error))
           ash_credentials logged_in).2 = ash) ∧
  (rejects (login sample_engine (answering (Resolved no_token_response))
              ash_credentials logged_in).1 = true ∧
   user (login sample_engine (answering (Resolved no_token_response))
           ash_credentials logged_in).2 = ash).
Proof.
  destruct (failed_calls_keep_user sample_engine (answering (Rejected network_error))
              ash_credentials logged_in) as (Hl & _ & Hr).
  destruct (failed_calls_keep_user sample_engine (answering (Resolved no_token_response))
              ash_credentials logged_in) as (_ & Hd & _).
  destruct (Hl network_error eq_refl) as (? & ? & _).
  destruct (Hr network_error eq_refl) as (? & ? & _).
  destruct (Hd no_token_response eq_refl eq_refl) as (? & ? & _).
  done.
Defined.

(** ** Logout *)




(** ** The bootstrap lookup *)

(** C8. The bootstrap lookup adopts the user it resolves to.  When it
    fails, whatever the rejection value, the user stays as it was ([null],
    since the lookup runs on the initial state), the failure goes to the
    console only: no toast is emitted, the server error of the dialog is
    untouched and the promise does not reject.  Either way [isLoading]
    ends [false]. *)
Theorem checkAuth_bootstrap B w :
  (∀ currentUser,
     getCurrentUser_outcome B = Fulfilled currentUser →
     user (checkAuth B w).2 = currentUser ∧
     isLoading (checkAuth B w).2 = false) ∧
  (∀ reason,
     getCurrentUser_outcome B = Failed reason →
     rejects (checkAuth B w).1 = false ∧
     user (checkAuth B w).2 = user w ∧
     (∀ storage defaultTab, w = initial storage defaultTab →
        user (checkAuth B w).2 = JNull) ∧
     isLoading (checkAuth B w).2 = false ∧
     serverError (checkAuth B w).2 = serverError w ∧
     added w (checkAuth B w).2
       [EvGetCurrentUser;
        EvConsoleError [JStr (js "Auth check failed:"); reason];
        EvSetIsLoading false] ∧
     ∃ evs, added w (checkAuth B w).2 evs ∧ Forall (λ ev, is_toast ev = false) evs).
Proof.
  split.
  - intros u H. by rewrite (checkAuth_resolved B w u H).
  - intros reason H. rewrite (checkAuth_rejected B w reason H).
    repeat split.
    + by intros storage tab ->.
    + eexists. split; [reflexivity|repeat constructor].
Qed.

Lemma checkAuth_bootstrap_witness :
  user (checkAuth (answering (Resolved ash)) first_render).2 = ash ∧
  isLoading (checkAuth (answering (Resolved ash)) first_render).2 = false ∧
  user (checkAuth (answering (Rejected network_error)) first_render).2 = JNull ∧
  isLoading (checkAuth (answering (Rejected network_error)) first_render).2 = false.
Proof.
  destruct (checkAuth_bootstrap (answering (Resolved ash)) first_render) as [Hok _].
  destruct (checkAuth_bootstrap (answering (Rejected network_error)) first_render)
    as [_ Hfail].
  destruct (Hok ash eq_refl) as [? ?].
  destruct (Hfail (JObj network_error) eq_refl) as (_ & _ & Hnull & ? & _).
  split; [done|]. split; [done|]. split; [|done].
  exact (Hnull ∅ TabLogin eq_refl).
Defined.

(** ** What is written to the storage *)

(** Split on the path that [login] or [register] takes. *)
Ltac login_paths E B credentials w :=
  let d := fresh "d" in
  let error := fresh "error" in
  let Hpost := fresh "Hpost" in
  let Hd := fresh "Hd" in
  let Ht := fresh "Ht" in
  let Hc := fresh "Hc" in
  let Hu := fresh "Hu" in
  let Hn := fresh "Hn" in
  destruct (post_outcome B login_url credentials) as [d|error] eqn:Hpost;
  [ destruct (nullish d) eqn:Hd;
    [ rewrite (login_no_data E B credentials w d Hpost Hd)
    | destruct (truthy (own_prop d (js "token"))) eqn:Ht;
      [ destruct (can_convert (own_prop d (js "token"))) eqn:Hc;
        [ destruct (nullish (own_prop d (js "user"))) eqn:Hu;
          [ rewrite (login_no_user E B credentials w d Hpost Hd Ht Hc Hu)
          | destruct (can_convert (own_prop (own_prop d (js "user")) (js "username")))
              eqn:Hn;
            [ rewrite (login_success E B credentials w d Hpost Hd Ht Hc Hu Hn)
            | rewrite (login_bad_name E B credentials w d Hpost Hd Ht Hc Hu Hn) ] ]
        | rewrite (login_bad_token E B credentials w d Hpost Hd Ht Hc) ]
      | rewrite (login_no_token E B credentials w d Hpost Hd Ht) ] ]
  | rewrite (login_rejected E B credentials w error Hpost) ].

Ltac register_paths E B credentials w :=
  let d := fresh "d" in
  let error := fresh "error" in
  let Hpost := fresh "Hpost" in
  let Hd := fresh "Hd" in
  let Hu := fresh "Hu" in
  let Hn := fresh "Hn" in
  destruct (post_outcome B register_url credentials) as [d|error] eqn:Hpost;
  [ destruct (nullish d) eqn:Hd;
    [ rewrite (register_no_data E B credentials w d Hpost Hd)
    | destruct (nullish (own_prop d (js "user"))) eqn:Hu;
      [ rewrite (register_no_user E B credentials w d Hpost Hd Hu)
      | destruct (can_convert (own_prop (own_prop d (js "user")) (js "username")))
          eqn:Hn;
        [ rewrite (register_success E B credentials w d Hpost Hd Hu Hn)
        | rewrite (register_bad_name E B credentials w d Hpost Hd Hu Hn) ] ] ]
  | rewrite (register_rejected E B credentials w error Hpost) ].

(** C6. [updateUser] always replaces the user and stores its
    serialization under [user], with no network call (its two effects are
    all it does).  [login] never writes a key other than [token], and when
    it succeeds it has written [token].  [register] writes nothing. *)
Theorem storage_writes E :
  (∀ w updatedUser,
     rejects (updateUser E updatedUser w).1 = false ∧
     user (updateUser E updatedUser w).2 = updatedUser ∧
     localStorage (updateUser E updatedUser w).2 =
       <[js "user" := to_string E (JSON_stringify E updatedUser)]> (localStorage w) ∧
     added w (updateUser E updatedUser w).2
       [EvSetUser updatedUser;
        EvSetItem (js "user") (to_string E (JSON_stringify E updatedUser))]) ∧
  (∀ B credentials w,
     (∀ k, k ≠ js "token" →
        localStorage (login E B credentials w).2 !! k = localStorage w !! k) ∧
     localStorage (login E B credentials w).2 !! js "user" = localStorage w !! js "user" ∧
     (∃ evs, added w (login E B credentials w).2 evs ∧
             Forall (λ ev, writes_other_than (js "token") ev = false) evs) ∧
     (rejects (login E B credentials w).1 = false →
      ∃ token,
        localStorage (login E B credentials w).2 = <[js "token" := token]> (localStorage w))) ∧
  (∀ B credentials w,
     localStorage (register E B credentials w).2 = localStorage w ∧
     ∃ evs, added w (register E B credentials w).2 evs ∧
            Forall (λ ev, is_storage_write ev = false) evs).
Proof.
  split; [|split].
  - intros w u. by rewrite updateUser_run.
  - intros B credentials w.
    login_paths E B credentials w;
      (split; [intros k Hk; cbn; by rewrite ?lookup_insert_ne by done|]);
      (split; [cbn; by rewrite ?lookup_insert_ne by discriminate|]);
      (split; [eexists; split; [reflexivity|repeat constructor]|]);
      cbn; try done.
    intros _. eauto.
  - intros B credentials w.
    register_paths E B credentials w;
      (split; [done|]); eexists; (split; [reflexivity|repeat constructor]).
Qed.

Lemma storage_writes_witness :
  rejects (login sample_engine (answering (Resolved full_response)) ash_credentials
             first_render).1 = false ∧
  ∃ token,
    localStorage (login sample_engine (answering (Resolved full_response)) ash_credentials
                    first_render).2 =
    <[js "token" := token]> (localStorage first_render).
Proof.
  split; [reflexivity|].
  apply (proj2 (proj2 (proj2 (proj1 (proj2 (storage_writes sample_engine))
           (answering (Resolved full_response)) ash_credentials first_render)))).
  reflexivity.
Defined.

(** ** Submitting the forms *)

Lemma validateLoginForm_keys f k :
  is_Some (validateLoginForm f !! k) ↔
  (k = js "email" ∧ LoginForm.email f = []) ∨
  (k = js "password" ∧ LoginForm.password f = []).
Proof.
  destruct (decide (k = js "email")) as [->|Hk1].
  { rewrite validateLoginForm_email.
    destruct (truthy (JStr (LoginForm.email f))) eqn:Ht.
    - apply truthy_JStr_true in Ht. split; [by intros []|]. by intros [[_ ?]|[[=] _]].
    - apply truthy_JStr_false in Ht. split; [by left|by eauto]. }
  destruct (decide (k = js "password")) as [->|Hk2].
  { rewrite validateLoginForm_password.
    destruct (truthy (JStr (LoginForm.password f))) eqn:Ht.
    - apply truthy_JStr_true in Ht. split; [by intros []|]. by intros [[[=] _]|[_ ?]].
    - apply truthy_JStr_false in Ht. split; [by right|by eauto]. }
  rewrite validateLoginForm_other by done. split; [by intros []|].
  by intros [[? _]|[? _]].
Qed.

Lemma validateRegisterForm_keys f k :
  is_Some (validateRegisterForm f !! k) ↔
  (k = js "username" ∧ RegisterForm.username f = []) ∨
  (k = js "email" ∧
     (RegisterForm.email f = [] ∨ ¬ text_at_text_dot_text (RegisterForm.email f))) ∨
  (k = js "password" ∧
     (RegisterForm.password f = [] ∨ (List.length (RegisterForm.password f) < 6)%nat)) ∨
  (k = js "confirmPassword" ∧ RegisterForm.confirmPassword f ≠ RegisterForm.password f).
Proof.
  destruct (decide (k = js "username")) as [->|Hk1].
  { rewrite register_username_rule. split; [by left|].
    by intros [[_ ?]|[[[=] _]|[[[=] _]|[[=] _]]]]. }
  destruct (decide (k = js "email")) as [->|Hk2].
  { rewrite register_email_rule. split; [by right; left|].
    by intros [[[=] _]|[[_ ?]|[[[=] _]|[[=] _]]]]. }
  destruct (decide (k = js "password")) as [->|Hk3].
  { rewrite register_password_rule. split; [by right; right; left|].
    by intros [[[=] _]|[[[=] _]|[[_ ?]|[[=] _]]]]. }
  destruct (decide (k = js "confirmPassword")) as [->|Hk4].
  { rewrite register_confirmPassword_rule. split; [by right; right; right|].
    by intros [[[=] _]|[[[=] _]|[[[=] _]|[_ ?]]]]. }
  rewrite validateRegisterForm_other by done. split; [by intros []|].
  by intros [[? _]|[[? _]|[[? _]|[? _]]]].
Qed.

Lemma handleLoginSubmit_blocked E B w :
  validateLoginForm (loginForm w) ≠ ∅ →
  handleLoginSubmit E B w =
  (Ok (),
   with_errors w (validateLoginForm (loginForm w)) JNull
     [EvPreventDefault; EvSetFormErrors (validateLoginForm (loginForm w));
      EvSetServerError JNull]).
Proof.
  intros Hne. run.
  rewrite bool_decide_eq_false_2 by (by rewrite Object_keys_empty).
  reflexivity.
Qed.

Lemma handleRegisterSubmit_blocked E B w :
  validateRegisterForm (registerForm w) ≠ ∅ →
  handleRegisterSubmit E B w =
  (Ok (),
   with_errors w (validateRegisterForm (registerForm w)) JNull
     [EvPreventDefault; EvSetFormErrors (validateRegisterForm (registerForm w));
      EvSetServerError JNull]).
Proof.
  intros Hne. run.
  rewrite bool_decide_eq_false_2 by (by rewrite Object_keys_empty).
  reflexivity.
Qed.

Lemma is_Some_lookup_nonempty (m : gmap jsstring jsstring) k : is_Some (m !! k) → m ≠ ∅.
Proof. intros [v Hv] ->. by rewrite lookup_empty in Hv. Qed.

(** C2. When a required field of the submitted form is empty (e-mail or
    password of the login form; user name, e-mail or password of the
    register form), the submit handler stops after validation: its only
    effects are [preventDefault], [setFormErrors] and
    [setServerError(null)], so no request is sent and [login]/[register]
    is not called, and the provider's state and the storage are as
    before.  The error map it sets has exactly the keys of the violated
    rules. *)
Theorem empty_required_field_blocks_submit E B w :
  (LoginForm.email (loginForm w) = [] ∨ LoginForm.password (loginForm w) = [] →
   let w' := (handleLoginSubmit E B w).2 in
   added w w' [EvPreventDefault; EvSetFormErrors (formErrors w'); EvSetServerError JNull] ∧
   (∃ evs, added w w' evs ∧ Forall (λ ev, is_network_call ev = false) evs) ∧
   (user w', isLoading w', localStorage w') = (user w, isLoading w, localStorage w) ∧
   ∀ k, is_Some (formErrors w' !! k) ↔
        (k = js "email" ∧ LoginForm.email (loginForm w) = []) ∨
        (k = js "password" ∧ LoginForm.password (loginForm w) = [])) ∧
  (RegisterForm.username (registerForm w) = [] ∨
   RegisterForm.email (registerForm w) = [] ∨
   RegisterForm.password (registerForm w) = [] →
   let f := registerForm w in
   let w' := (handleRegisterSubmit E B w).2 in
   added w w' [EvPreventDefault; EvSetFormErrors (formErrors w'); EvSetServerError JNull] ∧
   (∃ evs, added w w' evs ∧ Forall (λ ev, is_network_call ev = false) evs) ∧
   (user w', isLoading w', localStorage w') = (user w, isLoading w, localStorage w) ∧
   ∀ k, is_Some (formErrors w' !! k) ↔
        (k = js "username" ∧ RegisterForm.username f = []) ∨
        (k = js "email" ∧
           (RegisterForm.email f = [] ∨ ¬ text_at_text_dot_text (RegisterForm.email f))) ∨
        (k = js "password" ∧
           (RegisterForm.password f = [] ∨
            (List.length (RegisterForm.password f) < 6)%nat)) ∨
        (k = js "confirmPassword" ∧
           RegisterForm.confirmPassword f ≠ RegisterForm.password f)).
Proof.
  split.
  - intros Hempty. cbn zeta.
    rewrite handleLoginSubmit_blocked.
    + split; [reflexivity|]. split; [|split; [reflexivity|]].
      * eexists. split; [reflexivity|repeat constructor].
      * intros k. apply validateLoginForm_keys.
    + destruct Hempty as [He|Hp].
      * apply (is_Some_lookup_nonempty _ (js "email")).
        apply validateLoginForm_keys. by left.
      * apply (is_Some_lookup_nonempty _ (js "password")).
        apply validateLoginForm_keys. by right.
  - intros Hempty. cbn zeta.
    rewrite handleRegisterSubmit_blocked.
    + split; [reflexivity|]. split; [|split; [reflexivity|]].
      * eexists. split; [reflexivity|repeat constructor].
      * intros k. apply validateRegisterForm_keys.
    + destruct Hempty as [Hu|[He|Hp]].
      * apply (is_Some_lookup_nonempty _ (js "username")).
        apply validateRegisterForm_keys. by left.
      * apply (is_Some_lookup_nonempty _ (js "email")).
        apply validateRegisterForm_keys. right; left. by eauto.
      * apply (is_Some_lookup_nonempty _ (js "password")).
        apply validateRegisterForm_keys. right; right; left. by eauto.
Qed.

Lemma empty_required_field_blocks_submit_witness :
  events (handleLoginSubmit sample_engine (answering (Resolved full_response))
            half_filled).2 =
    [EvPreventDefault;
     EvSetFormErrors
       (formErrors (handleLoginSubmit sample_engine (answering (Resolved full_response))
                      half_filled).2);
     EvSetServerError JNull] ∧
  events (handleRegisterSubmit sample_engine (answering (Resolved full_response))
            half_filled).2 =
    [EvPreventDefault;
     EvSetFormErrors
       (formErrors (handleRegisterSubmit sample_engine (answering (Resolved full_response))
                      half_filled).2);
     EvSetServerError JNull].
Proof.
  destruct (empty_required_field_blocks_submit sample_engine
              (answering (Resolved full_response)) half_filled) as [Hl Hr].
  destruct (Hl (or_intror eq_refl)) as [H1 _].
  destruct (Hr (or_introl eq_refl)) as [H2 _].
  split; [exact H1|exact H2].
Defined.

(** ** What an operation leaves alone *)

Ltac frame_done :=
  eexists _, _, _, _; split; [reflexivity|]; solve [by left | right; eauto].

(** [login] and [register] touch the provider's cells, the storage and the
    log only, and the user they leave is the old one or the [user] of the
    response. *)
Lemma login_frame E B credentials w :
  ∃ u l s evs,
    (login E B credentials w).2 = with_provider w u l s evs ∧
    (u = user w ∨
     ∃ d, post_outcome B login_url credentials = Resolved d ∧ u = own_prop d (js "user")).
Proof. login_paths E B credentials w; frame_done. Qed.

Lemma register_frame E B credentials w :
  ∃ u l s evs,
    (register E B credentials w).2 = with_provider w u l s evs ∧
    (u = user w ∨
     ∃ d, post_outcome B register_url credentials = Resolved d ∧
          u = own_prop d (js "user")).
Proof. register_paths E B credentials w; frame_done. Qed.

Ltac run_handler :=
  cbv [handleLoginSubmit handleRegisterSubmit try_catch setFormErrors setServerError
       console_error preventDefault onClose emit modify gets throw get_prop get_prop_opt
       mbind M_bind mret M_ret];
  cbn [user isLoading localStorage activeTab loginForm registerForm formErrors
       serverError events].

Lemma handleLoginSubmit_frame E B w :
  submit_frame B login_url (validateLoginForm (loginForm w)) w (handleLoginSubmit E B w).2.
Proof.
  run_handler. case_bool_decide; [|by repeat split; auto].
  proj_simpl.
  match goal with |- context [login E B ?c ?w1] =>
    destruct (login_frame E B c w1) as (u & l & s & evs & Hw & Hu);
    destruct (login E B c w1) as [r w2]; cbn [snd] in Hw; subst w2
  end.
  assert (Huser : u = user w ∨
            ∃ credentials d, post_outcome B login_url credentials = Resolved d ∧
                             u = own_prop d (js "user")).
  { destruct Hu as [Hu|(d & Hd & Hu)]; [by left|right; eauto]. }
  unfold submit_frame, with_provider.
  destruct r as [[]|e]; proj_simpl; [by repeat split|].
  destruct (nullish e); proj_simpl; [by repeat split|].
  destruct (nullish (own_prop e (js "response"))); proj_simpl; [by repeat split|].
  destruct (nullish (own_prop (own_prop e (js "response")) (js "data"))); proj_simpl;
    by repeat split.
Qed.

Lemma handleRegisterSubmit_frame E B w :
  submit_frame B register_url (validateRegisterForm (registerForm w)) w
    (handleRegisterSubmit E B w).2.
Proof.
  run_handler. case_bool_decide; [|by repeat split; auto].
  proj_simpl.
  match goal with |- context [register E B ?c ?w1] =>
    destruct (register_frame E B c w1) as (u & l & s & evs & Hw & Hu);
    destruct (register E B c w1) as [r w2]; cbn [snd] in Hw; subst w2
  end.
  assert (Huser : u = user w ∨
            ∃ credentials d, post_outcome B register_url credentials = Resolved d ∧
                             u = own_prop d (js "user")).
  { destruct Hu as [Hu|(d & Hd & Hu)]; [by left|right; eauto]. }
  unfold submit_frame, with_provider.
  destruct r as [[]|e]; proj_simpl; [by repeat split|].
  destruct (nullish e); proj_simpl; [by repeat split|].
  destruct (nullish (own_prop e (js "response"))); proj_simpl; [by repeat split|].
  destruct (nullish (own_prop (own_prop e (js "response")) (js "data"))); proj_simpl;
    by repeat split.
Qed.

(** ** The submit handlers on a valid form *)

Lemma Object_keys_of_empty :
  bool_decide (List.length (Object_keys (∅ : gmap jsstring jsstring)) = 0%nat) = true.
Proof. reflexivity. Qed.

Ltac chain_cases e :=
  let r := fresh "r" in
  let d := fresh "d" in
  unfold server_message;
  remember (own_prop e (js "response")) as r;
  remember (own_prop r (js "data")) as d;
  destruct r, d; cbn [nullish]; proj_simpl; rewrite <- ?app_assoc; cbn [app];
  first [ reflexivity
        | match goal with H : _ = own_prop _ _ |- _ => cbn [own_prop] in H; discriminate H end ].

(** What a submit does once its form has passed validation, in terms of
    the call it makes. *)
Lemma handleLoginSubmit_valid E B w :
  validateLoginForm (loginForm w) = ∅ →
  handleLoginSubmit E B w =
  match login E B (login_body (loginForm w))
          (with_errors w ∅ JNull
             [EvPreventDefault; EvSetFormErrors ∅; EvSetServerError JNull]) with
  | (Ok _, w2) => (Ok (), with_errors w2 (formErrors w2) (serverError w2) [EvOnClose])
  | (Throw e, w2) =>
      if nullish e then
        (Throw (new_TypeError E e (js "response")),
         with_errors w2 (formErrors w2) (serverError w2)
           [EvConsoleError [JStr (js "Login error:"); e]])
      else
        (Ok (),
         with_errors w2 (formErrors w2)
           (js_or (server_message e (js "error")) login_fallback)
           [EvConsoleError [JStr (js "Login error:"); e];
            EvSetServerError (js_or (server_message e (js "error")) login_fallback)])
  end.
Proof.
  intros Hvalid. run_handler. rewrite Hvalid, Object_keys_of_empty.
  unfold login_body, with_errors, login_fallback. proj_simpl.
  rewrite <- !app_assoc. cbn [app].
  destruct (login E B _ _) as [[[]|e] w2]; proj_simpl; [done|].
  destruct (nullish e) eqn:He; proj_simpl; [done|].
  rewrite <- ?app_assoc; cbn [app]. chain_cases e.
Qed.

Lemma handleRegisterSubmit_valid E B w :
  validateRegisterForm (registerForm w) = ∅ →
  handleRegisterSubmit E B w =
  match register E B (register_body (registerForm w))
          (with_errors w ∅ JNull
             [EvPreventDefault; EvSetFormErrors ∅; EvSetServerError JNull]) with
  | (Ok _, w2) => (Ok (), with_errors w2 (formErrors w2) (serverError w2) [EvOnClose])
  | (Throw e, w2) =>
      if nullish e then
        (Throw (new_TypeError E e (js "response")),
         with_errors w2 (formErrors w2) (serverError w2) [])
      else
        (Ok (),
         with_errors w2 (formErrors w2)
           (js_or (server_message e (js "message")) register_fallback)
           [EvSetServerError (js_or (server_message e (js "message")) register_fallback)])
  end.
Proof.
  intros Hvalid. run_handler. rewrite Hvalid, Object_keys_of_empty.
  unfold register_body, with_errors, register_fallback. proj_simpl.
  rewrite <- !app_assoc. cbn [app].
  destruct (register E B _ _) as [[[]|e] w2]; proj_simpl; [done|].
  destruct (nullish e) eqn:He; proj_simpl.
  { rewrite app_nil_r. by destruct w2. }
  chain_cases e.
Qed.

Lemma js_or_truthy a b : truthy b = true → truthy (js_or a b) = true.
Proof. intros Hb. unfold js_or. by destruct (truthy a) eqn:Ha. Qed.

(** ** The two tabs of the dialog *)





(** ** The authentication flag *)

Lemma is_object_User_or_null v : is_object v = true → User_or_null v = true.
Proof. by destruct v. Qed.

Lemma User_or_null_truthy v : User_or_null v = true → (truthy v = true ↔ v ≠ JNull).
Proof. by destruct v. Qed.

Lemma typed_step_preserves E B a w :
  typed_step (B, a) →
  User_or_null (user w) = true →
  User_or_null (user (after E B a w)) = true.
Proof.
  intros (Hpost & Hget & Hupd) Hw. simpl in Hpost, Hget, Hupd.
  unfold after. destruct a as [|c|c| |u|tab|tab field val|tab]; unfold perform.
  - destruct (getCurrentUser_outcome B) as [v|error] eqn:Ho.
    + rewrite (checkAuth_resolved B w v Ho). by apply Hget.
    + by rewrite (checkAuth_rejected B w error Ho).
  - destruct (login_frame E B c w) as (u & l & s & evs & -> & [->|(d & Hd & ->)]);
      [done|]. apply is_object_User_or_null. by eapply Hpost.
  - destruct (register_frame E B c w) as (u & l & s & evs & -> & [->|(d & Hd & ->)]);
      [done|]. apply is_object_User_or_null. by eapply Hpost.
  - destruct (logout_outcome B) as [v|reason] eqn:Ho.
    + by rewrite (logout_resolved E B w v Ho).
    + destruct (nullish reason) eqn:Hr.
      * by rewrite (logout_rejected_nullish E B w reason Ho Hr).
      * by rewrite (logout_rejected E B w reason Ho Hr).
  - rewrite updateUser_run. apply is_object_User_or_null. by apply Hupd.
  - done.
  - destruct tab; [by destruct field as [|?]|by destruct field as [|[|[|?]]]].
  - destruct tab.
    + destruct (handleLoginSubmit_frame E B w) as (_ & _ & _ & _ & [->|(c & d & Hd & ->)]);
        [done|]. apply is_object_User_or_null. by eapply Hpost.
    + destruct (handleRegisterSubmit_frame E B w)
        as (_ & _ & _ & _ & [->|(c & d & Hd & ->)]);
        [done|]. apply is_object_User_or_null. by eapply Hpost.
Qed.

Lemma typed_run_preserves E steps w :
  Forall typed_step steps →
  User_or_null (user w) = true →
  User_or_null (user (run E steps w)) = true.
Proof.
  intros Hsteps. revert w.
  induction Hsteps as [|[B a] steps Hstep _ IH]; intros w Hw; [done|].
  simpl. apply IH. by apply typed_step_preserves.
Qed.

(** C4, as the claim states it, fails: a login whose response is
    [{ token: "t1", user: false }] succeeds and leaves a user that is
    neither [null] nor [undefined] while [isAuthenticated] is [false]. *)
Lemma isAuthenticated_false_for_non_null_user :
  reachable sample_engine
    (run sample_engine [(answering (Resolved odd_user_response), DoLogin ash_credentials)]
       first_render) ∧
  AuthContextType.user
    (context_value
       (run sample_engine [(answering (Resolved odd_user_response), DoLogin ash_credentials)]
          first_render)) = JBool false ∧
  AuthContextType.isAuthenticated
    (context_value
       (run sample_engine [(answering (Resolved odd_user_response), DoLogin ash_credentials)]
          first_render)) = false ∧
  ¬ (AuthContextType.isAuthenticated
       (context_value
          (run sample_engine
             [(answering (Resolved odd_user_response), DoLogin ash_credentials)]
             first_render)) = true ↔
     AuthContextType.user
       (context_value
          (run sample_engine
             [(answering (Resolved odd_user_response), DoLogin ash_credentials)]
             first_render)) ≠ JNull).
Proof.
  split; [by eexists _, _, _|]. split; [reflexivity|].
  split; [reflexivity|]. intros [_ H]. discriminate H. discriminate.
Qed.

(** C4, amended.  In every state of every run, the [isAuthenticated] that
    the provider exposes is computed from the exposed [user] as [!!user]:
    it is [false] when the user is [null] or [undefined] and [true] when
    the user is an object.  In the runs whose collaborators and callers
    respect the declared types (the user they supply is a [User] object or
    [null]), it is exactly the truth value of "user is not null". *)
Theorem isAuthenticated_tracks_user E storage defaultTab steps :
  let value := context_value (run E steps (initial storage defaultTab)) in
  AuthContextType.isAuthenticated value = truthy (AuthContextType.user value) ∧
  (nullish (AuthContextType.user value) = true →
   AuthContextType.isAuthenticated value = false) ∧
  (is_object (AuthContextType.user value) = true →
   AuthContextType.isAuthenticated value = true) ∧
  (Forall typed_step steps →
   (AuthContextType.isAuthenticated value = true ↔ AuthContextType.user value ≠ JNull)).
Proof.
  cbn zeta. unfold context_value. cbn [AuthContextType.isAuthenticated AuthContextType.user].
  split; [done|]. split; [|split].
  - by destruct (user _).
  - by destruct (user _).
  - intros Hsteps. apply User_or_null_truthy.
    by apply typed_run_preserves.
Qed.

Lemma isAuthenticated_tracks_user_witness :
  Forall typed_step [(answering (Resolved full_response), DoLogin ash_credentials)] ∧
  (AuthContextType.isAuthenticated
     (context_value
        (run sample_engine [(answering (Resolved full_response), DoLogin ash_credentials)]
           (initial ∅ TabLogin))) = true ↔
   AuthContextType.user
     (context_value
        (run sample_engine [(answering (Resolved full_response), DoLogin ash_credentials)]
           (initial ∅ TabLogin))) ≠ JNull).
Proof.
  assert (Htyped : Forall typed_step
            [(answering (Resolved full_response), DoLogin ash_credentials)]).
  { repeat constructor.
    - intros url body d Hd. injection Hd as <-. reflexivity.
    - intros v Hv. injection Hv as <-. reflexivity.
    - intros u Hu. discriminate Hu. }
  split; [exact Htyped|].
  exact (proj2 (proj2 (proj2
           (isAuthenticated_tracks_user sample_engine ∅ TabLogin
              [(answering (Resolved full_response), DoLogin ash_credentials)]))) Htyped).
Defined.

(** ** The examples of the specification *)

(** [{ token: "t1", user: { id: 1, username: "ash" } }]: the storage gets
    the token, the state gets the user and the toast carries the user name. *)
Example login_full_response :
  login sample_engine (answering (Resolved full_response)) ash_credentials first_render =
  (Ok (),
   with_provider first_render ash false {[ js "token" := js "t1" ]}
     [EvSetIsLoading true; EvPost login_url ash_credentials true;
      EvSetItem (js "token") (js "t1"); EvSetUser ash;
      EvToast {| title := js "Welcome back!";
                 description := JStr (js "Logged in as ash");
                 variant := None |};
      EvSetIsLoading false]).
Proof. reflexivity. Qed.

(** [updateUser] on a logged-in session: state and storage change, and
    nothing else happens. *)
Example updateUser_ash :
  updateUser sample_engine ash first_render =
  (Ok (),
   with_provider first_render ash true {[ js "user" := js "{}" ]}
     [EvSetUser ash; EvSetItem (js "user") (js "{}")]).
Proof. reflexivity. Qed.

(** A valid login form whose request fails: the toast of [login] and the
    inline message of the dialog both appear, and the dialog stays open. *)
Example submit_login_network_error :
  (handleLoginSubmit sample_engine (answering (Rejected network_error))
     (mkWorld JNull false ∅ TabLogin (LoginForm.mk (js "ash@pallet.town") (js "pikachu"))
        (RegisterForm.mk [] [] [] []) ∅ JNull [])).2 =
  mkWorld JNull false ∅ TabLogin (LoginForm.mk (js "ash@pallet.town") (js "pikachu"))
    (RegisterForm.mk [] [] [] []) ∅ (JStr (js "Login failed. Please try again."))
    [EvPreventDefault; EvSetFormErrors ∅; EvSetServerError JNull;
     EvSetIsLoading true; EvPost login_url ash_credentials true;
     login_failed_toast (JObj network_error); EvSetIsLoading false;
     EvConsoleError [JStr (js "Login error:"); JObj network_error];
     EvSetServerError (JStr (js "Login failed. Please try again."))].
Proof. reflexivity. Qed.

(** A valid register form: the confirmation is not sent, and the dialog
    closes. *)
Example submit_register_success :
  events
    (handleRegisterSubmit sample_engine (answering (Resolved full_response))
       (mkWorld JNull false ∅ TabRegister (LoginForm.mk [] [])
          (RegisterForm.mk (js "ash") (js "ash@pallet.town") (js "pikachu") (js "pikachu"))
          ∅ JNull [])).2 =
  [EvPreventDefault; EvSetFormErrors ∅; EvSetServerError JNull;
   EvSetIsLoading true;
   EvPost register_url
     (JObj [(js "username", JStr (js "ash")); (js "email", JStr (js "ash@pallet.town"));
            (js "password", JStr (js "pikachu"))]) false;
   EvSetUser ash;
   EvToast {| title := js "Registration successful!";
              description := JStr (js "Welcome, ash!");
              variant := None |};
   EvSetIsLoading false; EvOnClose].
Proof. reflexivity. Qed.

(** ToString on values read from JSON: an own [toString] property makes
    an object unconvertible, also inside an array; [null] and [undefined]
    elements of an array are skipped. *)
Example can_convert_cases :
  can_convert unprintable = false ∧
  can_convert (JArr [JNum (Finite false 1 0); unprintable]) = false ∧
  can_convert (JArr [JNull; JUndefined; JObj [(js "valueOf", JBool true)]]) = true ∧
  to_string sample_engine (JArr [JNull; JStr (js "a"); JObj []]) = js ",a,[object Object]".
Proof. repeat split. Qed.

(** [{ token: "t1", user: { username: { toString: 1 } } }]: token and user
    are adopted, then the template literal of the toast throws, so the
    failure toast is emitted and the promise rejects. *)
Example login_unprintable_name :
  login sample_engine (answering (Resolved unprintable_name_response)) ash_credentials
    first_render =
  (Throw (new_ToString_error sample_engine unprintable),
   with_provider first_render (JObj [(js "username", unprintable)]) false
     {[ js "token" := js "t1" ]}
     [EvSetIsLoading true; EvPost login_url ash_credentials true;
      EvSetItem (js "token") (js "t1"); EvSetUser (JObj [(js "username", unprintable)]);
      login_failed_toast (new_ToString_error sample_engine unprintable);
      EvSetIsLoading false]).
Proof. reflexivity. Qed.

(** The end-session call rejects with [null]: [logout] rejects with the
    TypeError of reading [message], and nothing else happens. *)
Example logout_rejected_with_null :
  logout sample_engine (failing_with JNull) logged_in =
  (Throw (new_TypeError sample_engine JNull (js "message")),
   with_provider logged_in ash false ∅ [EvLogout]).
Proof. reflexivity. Qed.

Example password_abc_too_short :
  validateRegisterForm (RegisterForm.mk (js "ash") (js "a@b.com") (js "abc") (js "abc"))
  = {[ js "password" := js "Password must be at least 6 characters" ]}.
Proof. reflexivity. Qed.

Example password_abcdef_accepted :
  validateRegisterForm (RegisterForm.mk (js "ash") (js "a@b.com") (js "abcdef") (js "abcdef"))
  = ∅.
Proof. reflexivity. Qed.

(* ===================================================================== *)
(** * Part III: further properties of the code *)
(* ===================================================================== *)

(** ** The provider's operations, path by path *)

(** X1. [login] and [register] raise the loading flag first and lower it
    last, on every path: the flag is [false] when they return, and the two
    [setIsLoading] are all they do to it. *)
Theorem loading_cleared_on_exit E B credentials w :
  (isLoading (login E B credentials w).2 = false ∧
   ∃ evs, added w (login E B credentials w).2 evs ∧
          head evs = Some (EvSetIsLoading true) ∧
          last evs = Some (EvSetIsLoading false) ∧
          count is_set_loading evs = 2%nat) ∧
  (isLoading (register E B credentials w).2 = false ∧
   ∃ evs, added w (register E B credentials w).2 evs ∧
          head evs = Some (EvSetIsLoading true) ∧
          last evs = Some (EvSetIsLoading false) ∧
          count is_set_loading evs = 2%nat).
Proof.
  split.
  - login_paths E B credentials w; (split; [done|]); eexists;
      (split; [reflexivity|done]).
  - register_paths E B credentials w; (split; [done|]); eexists;
      (split; [reflexivity|done]).
Qed.

Lemma login_response_ok_inv d :
  login_response_ok d = true →
  nullish d = false ∧ truthy (own_prop d (js "token")) = true ∧
  can_convert (own_prop d (js "token")) = true ∧
  nullish (own_prop d (js "user")) = false ∧
  can_convert (own_prop (own_prop d (js "user")) (js "username")) = true.
Proof.
  unfold login_response_ok.
  intros [[[[Hd Ht]%token_check_passes_inv Hc]%andb_true_iff
             Hu%negb_true_iff]%andb_true_iff Hn]%andb_true_iff.
  done.
Qed.

Lemma register_response_ok_inv d :
  register_response_ok d = true →
  nullish d = false ∧ nullish (own_prop d (js "user")) = false ∧
  can_convert (own_prop (own_prop d (js "user")) (js "username")) = true.
Proof.
  unfold register_response_ok.
  intros [[Hd%negb_true_iff Hu%negb_true_iff]%andb_true_iff Hn]%andb_true_iff.
  done.
Qed.

(** The equations of the path contradict [Hok]. *)
Ltac refute_ok Hok :=
  unfold login_response_ok, register_response_ok, token_check_passes in Hok;
  repeat match goal with
         | H : ?x = _ |- _ =>
             tryif constr_eq H Hok then fail
             else match type of Hok with context [x] => rewrite H in Hok end
         end;
  cbn [negb andb] in Hok; discriminate Hok.

(** X2. The promise of [login] fulfils exactly when the request resolved
    with data that pass the token check, whose token can be converted to
    a string, whose [user] is neither [null] nor [undefined] and whose
    user name can be converted to a string.  Then the user of the
    response is the new user, the token is in the storage as a string,
    and the one toast is 'Welcome back!' with the user name of the
    response. *)
Theorem login_fulfils_iff E B credentials w :
  (rejects (login E B credentials w).1 = false ↔
   ∃ d, post_outcome B login_url credentials = Resolved d ∧
        login_response_ok d = true) ∧
  (∀ d, post_outcome B login_url credentials = Resolved d →
        login_response_ok d = true →
        user (login E B credentials w).2 = own_prop d (js "user") ∧
        localStorage (login E B credentials w).2 =
          <[js "token" := to_string E (own_prop d (js "token"))]> (localStorage w) ∧
        ∃ evs, added w (login E B credentials w).2 evs ∧
               List.filter is_toast evs =
               [EvToast {| title := js "Welcome back!";
                           description :=
                             JStr (js "Logged in as " ++
                                   to_string E (own_prop (own_prop d (js "user"))
                                                  (js "username")));
                           variant := None |}]).
Proof.
  split.
  - login_paths E B credentials w; cbn [fst rejects]; split; try done;
      try (intros (d' & Heq & Hok);
           first [discriminate Heq | injection Heq as <-; refute_ok Hok]).
    intros _. exists d. split; [done|].
    unfold login_response_ok, token_check_passes. by rewrite Hd, Ht, Hc, Hu, Hn.
  - intros d Hpost (Hd & Ht & Hc & Hu & Hn)%login_response_ok_inv.
    rewrite (login_success E B credentials w d Hpost Hd Ht Hc Hu Hn).
    split; [done|]. split; [done|]. eexists. split; reflexivity.
Qed.

Lemma login_fulfils_iff_witness :
  user (login sample_engine (answering (Resolved full_response)) ash_credentials
          first_render).2 = ash ∧
  localStorage (login sample_engine (answering (Resolved full_response)) ash_credentials
                  first_render).2 = <[js "token" := js "t1"]> ∅.
Proof.
  destruct (proj2 (login_fulfils_iff sample_engine (answering (Resolved full_response))
                     ash_credentials first_render)
              full_response eq_refl eq_refl) as (Hu & Hs & _).
  split; [exact Hu|exact Hs].
Defined.

(** X3. The promise of [register] fulfils exactly when the request
    resolved with data that are neither [null] nor [undefined], whose
    [user] is neither, and whose user name can be converted to a string;
    no token is asked for.  Then the user of the response is the new user
    and the one toast is 'Registration successful!' with the user name of
    the response. *)
Theorem register_fulfils_iff E B credentials w :
  (rejects (register E B credentials w).1 = false ↔
   ∃ d, post_outcome B register_url credentials = Resolved d ∧
        register_response_ok d = true) ∧
  (∀ d, post_outcome B register_url credentials = Resolved d →
        register_response_ok d = true →
        user (register E B credentials w).2 = own_prop d (js "user") ∧
        ∃ evs, added w (register E B credentials w).2 evs ∧
               List.filter is_toast evs =
               [EvToast {| title := js "Registration successful!";
                           description :=
                             JStr (js "Welcome, " ++
                                   to_string E (own_prop (own_prop d (js "user"))
                                                  (js "username")) ++
                                   js "!");
                           variant := None |}]).
Proof.
  split.
  - register_paths E B credentials w; cbn [fst rejects]; split; try done;
      try (intros (d' & Heq & Hok);
           first [discriminate Heq | injection Heq as <-; refute_ok Hok]).
    intros _. exists d. split; [done|].
    unfold register_response_ok. by rewrite Hd, Hu, Hn.
  - intros d Hpost (Hd & Hu & Hn)%register_response_ok_inv.
    rewrite (register_success E B credentials w d Hpost Hd Hu Hn).
    split; [done|]. eexists. split; reflexivity.
Qed.

Lemma register_fulfils_iff_witness :
  user (register sample_engine (answering (Resolved no_token_response)) ash_credentials
          first_render).2 = ash.
Proof.
  exact (proj1 (proj2 (register_fulfils_iff sample_engine
                         (answering (Resolved no_token_response))
                         ash_credentials first_render)
                  no_token_response eq_refl eq_refl)).
Defined.

(** X4. Every call of [login] and [register] emits exactly one toast, a
    failure toast exactly when the promise rejects.  [logout] emits
    exactly one toast when its promise fulfils and none when it rejects,
    which happens only when the end-session call rejects with [null] or
    [undefined]; its toast is a failure toast exactly when the call
    failed.  [checkAuth] and [updateUser] never toast. *)
Theorem one_toast_per_call E B w :
  (∀ credentials,
     ∃ evs, added w (login E B credentials w).2 evs ∧
            count is_toast evs = 1%nat ∧
            count is_failure_toast evs =
              (if rejects (login E B credentials w).1 then 1 else 0)%nat) ∧
  (∀ credentials,
     ∃ evs, added w (register E B credentials w).2 evs ∧
            count is_toast evs = 1%nat ∧
            count is_failure_toast evs =
              (if rejects (register E B credentials w).1 then 1 else 0)%nat) ∧
  (∃ evs, added w (logout E B w).2 evs ∧
          rejects (logout E B w).1 =
            match logout_outcome B with
            | Failed reason => nullish reason
            | Fulfilled _ => false
            end ∧
          count is_toast evs = (if rejects (logout E B w).1 then 0 else 1)%nat ∧
          count is_failure_toast evs =
            match logout_outcome B with
            | Failed reason => if nullish reason then 0 else 1
            | Fulfilled _ => 0
            end%nat) ∧
  (∃ evs, added w (checkAuth B w).2 evs ∧ count is_toast evs = 0%nat) ∧
  (∀ updatedUser,
     ∃ evs, added w (updateUser E updatedUser w).2 evs ∧ count is_toast evs = 0%nat).
Proof.
  split; [|split; [|split; [|split]]].
  - intros credentials.
    login_paths E B credentials w; eexists; (split; [reflexivity|done]).
  - intros credentials.
    register_paths E B credentials w; eexists; (split; [reflexivity|done]).
  - destruct (logout_outcome B) as [v|reason] eqn:Ho.
    + rewrite (logout_resolved E B w v Ho). eexists. split; [reflexivity|done].
    + destruct (nullish reason) eqn:Hr.
      * rewrite (logout_rejected_nullish E B w reason Ho Hr). eexists.
        split; [reflexivity|done].
      * rewrite (logout_rejected E B w reason Ho Hr). eexists.
        split; [reflexivity|done].
  - destruct (getCurrentUser_outcome B) as [v|reason] eqn:Ho.
    + rewrite (checkAuth_resolved B w v Ho). eexists. split; [reflexivity|done].
    + rewrite (checkAuth_rejected B w reason Ho). eexists. split; [reflexivity|done].
  - intros u. rewrite updateUser_run. eexists. split; [reflexivity|done].
Qed.

(** X5. [logout] never touches the storage or the loading flag, whether
    the end-session call succeeds or not: a token that [login] stored is
    still stored after logging out.  Its promise rejects only when the
    end-session call rejects with [null] or [undefined]. *)
Theorem logout_keeps_storage E B w :
  localStorage (logout E B w).2 = localStorage w ∧
  isLoading (logout E B w).2 = isLoading w ∧
  (∃ evs, added w (logout E B w).2 evs ∧ count is_storage_write evs = 0%nat) ∧
  (rejects (logout E B w).1 = true ↔
   ∃ reason, logout_outcome B = Failed reason ∧ nullish reason = true).
Proof.
  destruct (logout_outcome B) as [v|reason] eqn:Ho.
  - rewrite (logout_resolved E B w v Ho). repeat split; try done.
    + eexists. split; [reflexivity|done].
    + by intros (reason & [=] & _).
  - destruct (nullish reason) eqn:Hr.
    + rewrite (logout_rejected_nullish E B w reason Ho Hr). repeat split; try done.
      * eexists. split; [reflexivity|done].
      * by exists reason.
    + rewrite (logout_rejected E B w reason Ho Hr). repeat split; try done.
      * eexists. split; [reflexivity|done].
      * intros (reason' & [= <-] & Hr'). congruence.
Qed.

(** X6. A response that gets as far as the adoption of its user and
    whose [user] is [null] or [undefined] (for [login]: with a token that
    passes the check and can be stored; for [register]: any data)
    replaces the current user by that value before the call fails: the
    promise rejects, and whoever was logged in is no longer
    authenticated. *)
Theorem adoption_before_failure E B credentials w d :
  nullish (own_prop d (js "user")) = true →
  (post_outcome B login_url credentials = Resolved d →
   token_check_passes d = true →
   can_convert (own_prop d (js "token")) = true →
   rejects (login E B credentials w).1 = true ∧
   user (login E B credentials w).2 = own_prop d (js "user") ∧
   AuthContextType.isAuthenticated (context_value (login E B credentials w).2) = false) ∧
  (post_outcome B register_url credentials = Resolved d →
   nullish d = false →
   rejects (register E B credentials w).1 = true ∧
   user (register E B credentials w).2 = own_prop d (js "user") ∧
   AuthContextType.isAuthenticated (context_value (register E B credentials w).2) = false).
Proof.
  intros Hu.
  assert (Hfalse : truthy (own_prop d (js "user")) = false)
    by (by destruct (own_prop d (js "user"))).
  split.
  - intros Hpost [Hd Ht]%token_check_passes_inv Hc.
    rewrite (login_no_user E B credentials w d Hpost Hd Ht Hc Hu). by cbn.
  - intros Hpost Hd.
    rewrite (register_no_user E B credentials w d Hpost Hd Hu). by cbn.
Qed.

Lemma adoption_before_failure_witness :
  user logged_in = ash ∧
  user (login sample_engine (answering (Resolved token_only_response)) ash_credentials
          logged_in).2 = JUndefined ∧
  user (register sample_engine (answering (Resolved token_only_response)) ash_credentials
          logged_in).2 = JUndefined.
Proof.
  destruct (adoption_before_failure sample_engine (answering (Resolved token_only_response))
              ash_credentials logged_in token_only_response eq_refl) as [Hl Hr].
  destruct (Hl eq_refl eq_refl eq_refl) as (_ & Hlu & _).
  destruct (Hr eq_refl eq_refl) as (_ & Hru & _).
  split; [reflexivity|]. split; [exact Hlu|exact Hru].
Defined.

(** ** The submit handlers *)

(** X7. A form is valid (its error map is empty, so its submit goes on to
    the request) exactly when: for the login form, e-mail and password are
    non-empty, with no check of the e-mail's format; for the register
    form, the user name is non-empty, the e-mail contains the shape
    [text@text.text], the password has at least 6 code units and the
    confirmation equals it. *)
Theorem valid_forms :
  (∀ f, validateLoginForm f = ∅ ↔ LoginForm.email f ≠ [] ∧ LoginForm.password f ≠ []) ∧
  (∀ f, validateRegisterForm f = ∅ ↔
        RegisterForm.username f ≠ [] ∧
        text_at_text_dot_text (RegisterForm.email f) ∧
        (6 ≤ List.length (RegisterForm.password f))%nat ∧
        RegisterForm.confirmPassword f = RegisterForm.password f).
Proof.
  split; intros f.
  - split.
    + intros Hempty.
      assert (Hk : ∀ k, ¬ is_Some (validateLoginForm f !! k))
        by (intros k; rewrite Hempty, lookup_empty; by intros []).
      split; intros Hnil.
      * apply (Hk (js "email")), validateLoginForm_keys. by left.
      * apply (Hk (js "password")), validateLoginForm_keys. by right.
    + intros [He Hp]. apply map_empty. intros k. apply eq_None_not_Some.
      rewrite validateLoginForm_keys. by intros [[_ ?]|[_ ?]].
  - split.
    + intros Hempty.
      assert (Hk : ∀ k, ¬ is_Some (validateRegisterForm f !! k))
        by (intros k; rewrite Hempty, lookup_empty; by intros []).
      pose proof (Hk (js "username")) as Hu. rewrite register_username_rule in Hu.
      pose proof (Hk (js "email")) as He. rewrite register_email_rule in He.
      pose proof (Hk (js "password")) as Hp. rewrite register_password_rule in Hp.
      pose proof (Hk (js "confirmPassword")) as Hc.
      rewrite register_confirmPassword_rule in Hc.
      split; [done|]. split; [|split].
      * apply email_pattern_test.
        destruct (regex_test email_pattern (RegisterForm.email f)) eqn:Ht; [done|].
        destruct He. right. rewrite <- email_pattern_test. by rewrite Ht.
      * destruct (le_lt_dec 6 (List.length (RegisterForm.password f))); [done|].
        destruct Hp. by right.
      * by apply dec_stable.
    + intros (Hu & He & Hp & Hc). apply map_empty. intros k. apply eq_None_not_Some.
      rewrite validateRegisterForm_keys.
      intros [[_ ?]|[[_ [Hnil|?]]|[[_ [Hnil|?]]|[_ ?]]]]; try done.
      * destruct He as (pre & a & b & c & post & Heq & _). rewrite Hnil in Heq.
        apply (f_equal (@List.length N)) in Heq. rewrite !length_app in Heq.
        simpl in Heq. lia.
      * rewrite Hnil in Hp. simpl in Hp. lia.
      * lia.
Qed.

(** The value [login] or [register] rejects with is always an object. *)
Lemma login_throws_object E B credentials w e :
  (login E B credentials w).1 = Throw e → nullish e = false.
Proof. login_paths E B credentials w; cbn [fst]; by intros [= <-]. Qed.

Lemma register_throws_object E B credentials w e :
  (register E B credentials w).1 = Throw e → nullish e = false.
Proof. register_paths E B credentials w; cbn [fst]; by intros [= <-]. Qed.

Ltac submit_done :=
  unfold added, with_errors, with_provider; proj_simpl;
  rewrite <- ?app_assoc; cbn [app].

(** X8. Submitting a valid form sends exactly one request and nothing is
    retried: the login form posts its e-mail and password to the login
    endpoint with credentials included; the register form posts user
    name, e-mail and password (the confirmation is not sent) to the
    register endpoint without that option. *)
Theorem valid_submit_posts_once E B w :
  (validateLoginForm (loginForm w) = ∅ →
   ∃ evs, added w (handleLoginSubmit E B w).2 evs ∧
          List.filter is_network_call evs =
            [EvPost login_url (login_body (loginForm w)) true]) ∧
  (validateRegisterForm (registerForm w) = ∅ →
   has_field (register_body (registerForm w)) (js "confirmPassword") = false ∧
   ∃ evs, added w (handleRegisterSubmit E B w).2 evs ∧
          List.filter is_network_call evs =
            [EvPost register_url (register_body (registerForm w)) false]).
Proof.
  split.
  - intros Hvalid. rewrite (handleLoginSubmit_valid E B w Hvalid).
    match goal with |- context [login E B ?c ?w1] => login_paths E B c w1 end;
      rewrite ?nullish_new_TypeError, ?nullish_new_Error; cbn [nullish];
      submit_done; eexists; (split; [reflexivity|reflexivity]).
  - intros Hvalid. split; [reflexivity|].
    rewrite (handleRegisterSubmit_valid E B w Hvalid).
    match goal with |- context [register E B ?c ?w1] => register_paths E B c w1 end;
      rewrite ?nullish_new_TypeError, ?nullish_new_Error; cbn [nullish];
      submit_done; eexists; (split; [reflexivity|reflexivity]).
Qed.

Lemma valid_submit_posts_once_witness :
  (∃ evs,
     added filled_login
       (handleLoginSubmit sample_engine (answering (Rejected network_error))
          filled_login).2 evs ∧
     List.filter is_network_call evs = [EvPost login_url ash_credentials true]) ∧
  (∃ evs,
     added filled_register
       (handleRegisterSubmit sample_engine (answering (Rejected network_error))
          filled_register).2 evs ∧
     List.filter is_network_call evs =
       [EvPost register_url (register_body (registerForm filled_register)) false]).
Proof.
  split.
  - apply (proj1 (valid_submit_posts_once sample_engine
                    (answering (Rejected network_error)) filled_login)).
    reflexivity.
  - apply (proj2 (valid_submit_posts_once sample_engine
                    (answering (Rejected network_error)) filled_register)).
    reflexivity.
Defined.

(** X9. What the user sees after submitting a valid login form.  If the
    request is rejected, the dialog stays open, the inline message is the
    [error] field of the response body when that is truthy and 'Login
    failed. Please try again.' otherwise, and the failure toast of
    [login] is emitted as well.  If the request resolves but [login]
    fails on the response (no usable token, no user, or a user name that
    cannot be converted to a string), the dialog stays open with the
    fallback message.  If [login] fulfils, the dialog closes, once, as
    the last effect, and no message is shown. *)
Theorem submit_login_outcome E B w :
  validateLoginForm (loginForm w) = ∅ →
  (∀ error,
     post_outcome B login_url (login_body (loginForm w)) = Rejected error →
     serverError (handleLoginSubmit E B w).2 =
       js_or (server_message (JObj error) (js "error")) login_fallback ∧
     truthy (serverError (handleLoginSubmit E B w).2) = true ∧
     ∃ evs, added w (handleLoginSubmit E B w).2 evs ∧
            count is_close evs = 0%nat ∧ count is_failure_toast evs = 1%nat) ∧
  (∀ d,
     post_outcome B login_url (login_body (loginForm w)) = Resolved d →
     login_response_ok d = false →
     serverError (handleLoginSubmit E B w).2 = login_fallback ∧
     ∃ evs, added w (handleLoginSubmit E B w).2 evs ∧
            count is_close evs = 0%nat ∧ count is_failure_toast evs = 1%nat) ∧
  (∀ d,
     post_outcome B login_url (login_body (loginForm w)) = Resolved d →
     login_response_ok d = true →
     serverError (handleLoginSubmit E B w).2 = JNull ∧
     formErrors (handleLoginSubmit E B w).2 = ∅ ∧
     ∃ evs, added w (handleLoginSubmit E B w).2 evs ∧
            last evs = Some EvOnClose ∧
            count is_close evs = 1%nat ∧ count is_failure_toast evs = 0%nat).
Proof.
  intros Hvalid. rewrite (handleLoginSubmit_valid E B w Hvalid).
  split; [|split].
  - intros error Hpost. rewrite (login_rejected E B _ _ error Hpost).
    cbn [nullish]. submit_done. split; [done|]. split; [by apply js_or_truthy|].
    eexists. split; [reflexivity|done].
  - intros d Hpost Hbad. unfold login_response_ok, token_check_passes in Hbad.
    destruct (nullish d) eqn:Hd.
    { rewrite (login_no_data E B _ _ d Hpost Hd). rewrite nullish_new_TypeError.
      submit_done. split; [done|]. eexists. split; [reflexivity|done]. }
    destruct (truthy (own_prop d (js "token"))) eqn:Ht.
    2:{ rewrite (login_no_token E B _ _ d Hpost Hd Ht). rewrite nullish_new_Error.
        submit_done. split; [done|]. eexists. split; [reflexivity|done]. }
    destruct (can_convert (own_prop d (js "token"))) eqn:Hc.
    2:{ rewrite (login_bad_token E B _ _ d Hpost Hd Ht Hc).
        rewrite nullish_new_ToString_error.
        submit_done. split; [done|]. eexists. split; [reflexivity|done]. }
    destruct (nullish (own_prop d (js "user"))) eqn:Hu.
    { rewrite (login_no_user E B _ _ d Hpost Hd Ht Hc Hu). rewrite nullish_new_TypeError.
      submit_done. split; [done|]. eexists. split; [reflexivity|done]. }
    destruct (can_convert (own_prop (own_prop d (js "user")) (js "username"))) eqn:Hn;
      [done|].
    rewrite (login_bad_name E B _ _ d Hpost Hd Ht Hc Hu Hn).
    rewrite nullish_new_ToString_error.
    submit_done. split; [done|]. eexists. split; [reflexivity|done].
  - intros d Hpost (Hd & Ht & Hc & Hu & Hn)%login_response_ok_inv.
    rewrite (login_success E B _ _ d Hpost Hd Ht Hc Hu Hn).
    submit_done. split; [done|]. split; [done|]. eexists. split; [reflexivity|done].
Qed.

Lemma submit_login_outcome_witness :
  serverError (handleLoginSubmit sample_engine (answering (Rejected unauthorized_error))
                 filled_login).2 = JStr (js "Invalid credentials") ∧
  serverError (handleLoginSubmit sample_engine (answering (Rejected network_error))
                 filled_login).2 = login_fallback ∧
  serverError (handleLoginSubmit sample_engine (answering (Resolved no_token_response))
                 filled_login).2 = login_fallback ∧
  serverError (handleLoginSubmit sample_engine
                 (answering (Resolved unprintable_name_response))
                 filled_login).2 = login_fallback ∧
  serverError (handleLoginSubmit sample_engine (answering (Resolved full_response))
                 filled_login).2 = JNull.
Proof.
  destruct (submit_login_outcome sample_engine (answering (Rejected unauthorized_error))
              filled_login eq_refl) as (H1 & _ & _).
  destruct (submit_login_outcome sample_engine (answering (Rejected network_error))
              filled_login eq_refl) as (H2 & _ & _).
  destruct (submit_login_outcome sample_engine (answering (Resolved no_token_response))
              filled_login eq_refl) as (_ & H3 & _).
  destruct (submit_login_outcome sample_engine
              (answering (Resolved unprintable_name_response))
              filled_login eq_refl) as (_ & H3' & _).
  destruct (submit_login_outcome sample_engine (answering (Resolved full_response))
              filled_login eq_refl) as (_ & _ & H4).
  split; [exact (proj1 (H1 unauthorized_error eq_refl))|].
  split; [exact (proj1 (H2 network_error eq_refl))|].
  split; [exact (proj1 (H3 no_token_response eq_refl eq_refl))|].
  split; [exact (proj1 (H3' unprintable_name_response eq_refl eq_refl))|].
  exact (proj1 (H4 full_response eq_refl eq_refl)).
Defined.

(** X10. The same for the register form, whose inline message is the
    [message] field of the response body (not [error]) or 'Registration
    failed. Try a different email.'. *)
Theorem submit_register_outcome E B w :
  validateRegisterForm (registerForm w) = ∅ →
  (∀ error,
     post_outcome B register_url (register_body (registerForm w)) = Rejected error →
     serverError (handleRegisterSubmit E B w).2 =
       js_or (server_message (JObj error) (js "message")) register_fallback ∧
     truthy (serverError (handleRegisterSubmit E B w).2) = true ∧
     ∃ evs, added w (handleRegisterSubmit E B w).2 evs ∧
            count is_close evs = 0%nat ∧ count is_failure_toast evs = 1%nat) ∧
  (∀ d,
     post_outcome B register_url (register_body (registerForm w)) = Resolved d →
     register_response_ok d = false →
     serverError (handleRegisterSubmit E B w).2 = register_fallback ∧
     ∃ evs, added w (handleRegisterSubmit E B w).2 evs ∧
            count is_close evs = 0%nat ∧ count is_failure_toast evs = 1%nat) ∧
  (∀ d,
     post_outcome B register_url (register_body (registerForm w)) = Resolved d →
     register_response_ok d = true →
     serverError (handleRegisterSubmit E B w).2 = JNull ∧
     formErrors (handleRegisterSubmit E B w).2 = ∅ ∧
     ∃ evs, added w (handleRegisterSubmit E B w).2 evs ∧
            last evs = Some EvOnClose ∧
            count is_close evs = 1%nat ∧ count is_failure_toast evs = 0%nat).
Proof.
  intros Hvalid. rewrite (handleRegisterSubmit_valid E B w Hvalid).
  split; [|split].
  - intros error Hpost. rewrite (register_rejected E B _ _ error Hpost).
    cbn [nullish]. submit_done. split; [done|]. split; [by apply js_or_truthy|].
    eexists. split; [reflexivity|done].
  - intros d Hpost Hbad. unfold register_response_ok in Hbad.
    destruct (nullish d) eqn:Hd.
    { rewrite (register_no_data E B _ _ d Hpost Hd). rewrite nullish_new_TypeError.
      submit_done. split; [done|]. eexists. split; [reflexivity|done]. }
    destruct (nullish (own_prop d (js "user"))) eqn:Hu.
    { rewrite (register_no_user E B _ _ d Hpost Hd Hu). rewrite nullish_new_TypeError.
      submit_done. split; [done|]. eexists. split; [reflexivity|done]. }
    destruct (can_convert (own_prop (own_prop d (js "user")) (js "username"))) eqn:Hn;
      [done|].
    rewrite (register_bad_name E B _ _ d Hpost Hd Hu Hn).
    rewrite nullish_new_ToString_error.
    submit_done. split; [done|]. eexists. split; [reflexivity|done].
  - intros d Hpost (Hd & Hu & Hn)%register_response_ok_inv.
    rewrite (register_success E B _ _ d Hpost Hd Hu Hn).
    submit_done. split; [done|]. split; [done|]. eexists. split; [reflexivity|done].
Qed.

Lemma submit_register_outcome_witness :
  serverError (handleRegisterSubmit sample_engine (answering (Rejected unauthorized_error))
                 filled_register).2 = register_fallback ∧
  serverError (handleRegisterSubmit sample_engine
                 (answering (Resolved unprintable_name_response))
                 filled_register).2 = register_fallback ∧
  serverError (handleRegisterSubmit sample_engine (answering (Resolved full_response))
                 filled_register).2 = JNull.
Proof.
  destruct (submit_register_outcome sample_engine (answering (Rejected unauthorized_error))
              filled_register eq_refl) as (H1 & _ & _).
  destruct (submit_register_outcome sample_engine
              (answering (Resolved unprintable_name_response))
              filled_register eq_refl) as (_ & H2 & _).
  destruct (submit_register_outcome sample_engine (answering (Resolved full_response))
              filled_register eq_refl) as (_ & _ & H3).
  split; [exact (proj1 (H1 unauthorized_error eq_refl))|].
  split; [exact (proj1 (H2 unprintable_name_response eq_refl eq_refl))|].
  exact (proj1 (H3 full_response eq_refl eq_refl)).
Defined.

(** X11. The promises of the two submit handlers never reject: a failure
    of [login] or [register] is caught and turned into the inline
    message, and a blocked submit returns normally. *)
Theorem submit_never_rejects E B w :
  rejects (handleLoginSubmit E B w).1 = false ∧
  rejects (handleRegisterSubmit E B w).1 = false.
Proof.
  split.
  - destruct (decide (validateLoginForm (loginForm w) = ∅)) as [Hvalid|Hinvalid].
    + rewrite (handleLoginSubmit_valid E B w Hvalid).
      match goal with |- context [login E B ?c ?w1] =>
        pose proof (login_throws_object E B c w1) as Hobj;
        destruct (login E B c w1) as [[[]|e] w2]; cbn [fst] in Hobj
      end; [done|].
      by rewrite (Hobj e eq_refl).
    + by rewrite (handleLoginSubmit_blocked E B w Hinvalid).
  - destruct (decide (validateRegisterForm (registerForm w) = ∅)) as [Hvalid|Hinvalid].
    + rewrite (handleRegisterSubmit_valid E B w Hvalid).
      match goal with |- context [register E B ?c ?w1] =>
        pose proof (register_throws_object E B c w1) as Hobj;
        destruct (register E B c w1) as [[[]|e] w2]; cbn [fst] in Hobj
      end; [done|].
      by rewrite (Hobj e eq_refl).
    + by rewrite (handleRegisterSubmit_blocked E B w Hinvalid).
Qed.

(** ** The dialog's own handlers *)

Lemma validateLoginForm_filled f :
  LoginForm.email f ≠ [] → LoginForm.password f ≠ [] → validateLoginForm f = ∅.
Proof.
  destruct f as [[|c e] [|c' p]]; cbn [LoginForm.email LoginForm.password]; try done.
Qed.

(** X12. What is posted is what was typed last: after typing an e-mail
    and a password into the login tab (in whatever state the dialog was)
    and submitting, the one request carries exactly these two values. *)
Theorem typed_values_are_posted E B1 B2 B3 w email password :
  email ≠ [] →
  password ≠ [] →
  ∃ evs,
    added w
      (run E [(B1, DoEdit TabLogin 0 email); (B2, DoEdit TabLogin 1 password);
              (B3, DoSubmit TabLogin)] w) evs ∧
    List.filter is_network_call evs =
      [EvPost login_url
         (JObj [(js "email", JStr email); (js "password", JStr password)]) true].
Proof.
  intros He Hp. cbn [run]. unfold after at 1. unfold perform at 1.
  set (w1 := after E B2 (DoEdit TabLogin 1 password) (after E B1 (DoEdit TabLogin 0 email) w)).
  assert (Hform : loginForm w1 = LoginForm.mk email password) by reflexivity.
  assert (Hevents : events w1 =
            events w ++ [EvSetLoginForm (LoginForm.mk email (LoginForm.password (loginForm w)));
                         EvSetLoginForm (LoginForm.mk email password)]).
  { subst w1. unfold after, perform, onChange_login_email, onChange_login_password,
      setLoginForm, emit, modify, gets, mbind, M_bind. proj_simpl.
    by rewrite <- app_assoc. }
  assert (Hvalid : validateLoginForm (loginForm w1) = ∅)
    by (rewrite Hform; by apply validateLoginForm_filled).
  rewrite (handleLoginSubmit_valid E B3 w1 Hvalid).
  match goal with |- context [login E B3 ?c ?w2] => login_paths E B3 c w2 end;
    rewrite ?nullish_new_TypeError, ?nullish_new_Error; cbn [nullish];
    submit_done; rewrite Hevents, Hform; rewrite <- ?app_assoc; cbn [app];
    eexists; (split; [reflexivity|reflexivity]).
Qed.

Lemma typed_values_are_posted_witness :
  ∃ evs,
    added half_filled
      (run sample_engine
         [(answering (Resolved full_response), DoEdit TabLogin 0 (js "ash@pallet.town"));
          (answering (Resolved full_response), DoEdit TabLogin 1 (js "pikachu"));
          (answering (Resolved full_response), DoSubmit TabLogin)] half_filled) evs ∧
    List.filter is_network_call evs = [EvPost login_url ash_credentials true].
Proof.
  apply (typed_values_are_posted sample_engine (answering (Resolved full_response))
           (answering (Resolved full_response)) (answering (Resolved full_response))
           half_filled (js "ash@pallet.town") (js "pikachu")); discriminate.
Defined.

(** X13. Typing into a field and switching tabs stay inside the dialog:
    they never reject, never change the user, the loading flag, the
    storage, the error map or the server error, and cause no request, no
    toast and no closing of the dialog; a switch makes the chosen tab the
    active one. *)
Theorem dialog_edits_stay_local E B w :
  (∀ tab,
     activeTab (after E B (DoSwitchTab tab) w) = tab ∧
     rejects (perform E B (DoSwitchTab tab) w).1 = false ∧
     (user (after E B (DoSwitchTab tab) w), isLoading (after E B (DoSwitchTab tab) w),
      localStorage (after E B (DoSwitchTab tab) w)) =
       (user w, isLoading w, localStorage w) ∧
     ∃ evs, added w (after E B (DoSwitchTab tab) w) evs ∧
            count leaves_dialog evs = 0%nat) ∧
  (∀ tab field val,
     activeTab (after E B (DoEdit tab field val) w) = activeTab w ∧
     rejects (perform E B (DoEdit tab field val) w).1 = false ∧
     (user (after E B (DoEdit tab field val) w),
      isLoading (after E B (DoEdit tab field val) w),
      localStorage (after E B (DoEdit tab field val) w)) =
       (user w, isLoading w, localStorage w) ∧
     (formErrors (after E B (DoEdit tab field val) w),
      serverError (after E B (DoEdit tab field val) w)) = (formErrors w, serverError w) ∧
     ∃ evs, added w (after E B (DoEdit tab field val) w) evs ∧
            count leaves_dialog evs = 0%nat).
Proof.
  split.
  - intros tab. repeat split. eexists. split; [reflexivity|done].
  - intros tab field val.
    destruct tab; [destruct field as [|?]|destruct field as [|[|[|?]]]];
      repeat split; eexists; (split; [reflexivity|done]).
Qed.

(** ** Invariants of runs *)

Lemma login_state_cases E B credentials w :
  isLoading (login E B credentials w).2 = false ∧
  (localStorage (login E B credentials w).2 = localStorage w ∨
   ∃ v, localStorage (login E B credentials w).2 = <[js "token" := v]> (localStorage w)).
Proof. login_paths E B credentials w; (split; [done|]); cbn; eauto. Qed.

Lemma register_state_cases E B credentials w :
  isLoading (register E B credentials w).2 = false ∧
  localStorage (register E B credentials w).2 = localStorage w.
Proof. by register_paths E B credentials w. Qed.

(** What one action can do to the loading flag and to the storage. *)
Lemma action_state_cases E B a w :
  (isLoading (after E B a w) = false ∨ isLoading (after E B a w) = isLoading w) ∧
  (localStorage (after E B a w) = localStorage w ∨
   ∃ k v, (k = js "token" ∨ k = js "user") ∧
          localStorage (after E B a w) = <[k := v]> (localStorage w)).
Proof.
  unfold after. destruct a as [|c|c| |u|tab|tab field val|tab]; unfold perform.
  - destruct (getCurrentUser_outcome B) as [v|error] eqn:Ho.
    + rewrite (checkAuth_resolved B w v Ho). cbn. auto.
    + rewrite (checkAuth_rejected B w error Ho). cbn. auto.
  - destruct (login_state_cases E B c w) as [Hl [Hs|[v Hs]]]; rewrite Hl, Hs; eauto 8.
  - destruct (register_state_cases E B c w) as [Hl Hs]; rewrite Hl, Hs; auto.
  - destruct (logout_outcome B) as [v|reason] eqn:Ho.
    + rewrite (logout_resolved E B w v Ho). cbn. auto.
    + destruct (nullish reason) eqn:Hr.
      * rewrite (logout_rejected_nullish E B w reason Ho Hr). cbn. auto.
      * rewrite (logout_rejected E B w reason Ho Hr). cbn. auto.
  - rewrite updateUser_run. cbn. eauto 8.
  - cbn. auto.
  - destruct tab; [destruct field as [|?]|destruct field as [|[|[|?]]]]; cbn; auto.
  - destruct tab.
    + destruct (decide (validateLoginForm (loginForm w) = ∅)) as [Hvalid|Hinvalid].
      * rewrite (handleLoginSubmit_valid E B w Hvalid).
        match goal with |- context [login E B ?c ?w1] =>
          destruct (login_state_cases E B c w1) as [Hl Hs];
          destruct (login E B c w1) as [[[]|e] w2]
        end; [|destruct (nullish e)]; cbn in *; rewrite Hl;
          (split; [by left|]); destruct Hs as [->|[v ->]]; eauto 8.
      * rewrite (handleLoginSubmit_blocked E B w Hinvalid). cbn. auto.
    + destruct (decide (validateRegisterForm (registerForm w) = ∅)) as [Hvalid|Hinvalid].
      * rewrite (handleRegisterSubmit_valid E B w Hvalid).
        match goal with |- context [register E B ?c ?w1] =>
          destruct (register_state_cases E B c w1) as [Hl Hs];
          destruct (register E B c w1) as [[[]|e] w2]
        end; [|destruct (nullish e)]; cbn in *; rewrite Hl, Hs; auto.
      * rewrite (handleRegisterSubmit_blocked E B w Hinvalid). cbn. auto.
Qed.

(** X14. Once the loading flag is down it is down after every further
    action, whatever the actions and the answers are: no operation
    returns with the flag raised.  In particular it is down throughout
    every run that starts with the bootstrap lookup. *)
Theorem loading_stays_down E steps w :
  (isLoading w = false → isLoading (run E steps w) = false) ∧
  (∀ B storage defaultTab,
     isLoading (run E ((B, DoCheckAuth) :: steps) (initial storage defaultTab)) = false).
Proof.
  assert (Hinv : ∀ steps w, isLoading w = false → isLoading (run E steps w) = false).
  { clear. intros steps. induction steps as [|[B a] steps IH]; intros w Hw; [done|].
    cbn [run]. apply IH.
    destruct (action_state_cases E B a w) as [[H|H] _]; congruence. }
  split; [apply Hinv|].
  intros B storage defaultTab. cbn [run]. apply Hinv.
  unfold after, perform.
  destruct (getCurrentUser_outcome B) as [v|error] eqn:Ho.
  - by rewrite (checkAuth_resolved B _ v Ho).
  - by rewrite (checkAuth_rejected B _ error Ho).
Qed.

Lemma loading_stays_down_witness :
  isLoading
    (run sample_engine
       [(answering (Resolved full_response), DoSubmit TabLogin);
        (answering (Rejected network_error), DoLogout)] filled_login) = false.
Proof.
  apply (proj1 (loading_stays_down sample_engine
                  [(answering (Resolved full_response), DoSubmit TabLogin);
                   (answering (Rejected network_error), DoLogout)] filled_login)).
  reflexivity.
Defined.

(** X15. Over every run, the storage is only ever written under [token]
    and [user], and nothing is ever removed from it: every other key
    keeps its value, and a key that is present stays present (so a stored
    token outlives logout and every later failure). *)
Theorem storage_over_runs E steps w :
  (∀ k, k ≠ js "token" → k ≠ js "user" →
        localStorage (run E steps w) !! k = localStorage w !! k) ∧
  (∀ k, is_Some (localStorage w !! k) → is_Some (localStorage (run E steps w) !! k)).
Proof.
  revert w. induction steps as [|[B a] steps IH]; intros w; [done|].
  cbn [run]. destruct (IH (after E B a w)) as [IH1 IH2].
  destruct (action_state_cases E B a w) as [_ [Hs|(k' & v & Hk' & Hs)]].
  - rewrite Hs in IH1, IH2. by split.
  - rewrite Hs in IH1, IH2. split.
    + intros k H1 H2. rewrite IH1 by done.
      apply lookup_insert_ne. destruct Hk'; congruence.
    + intros k Hk. apply IH2. rewrite lookup_insert. case_decide; [by eauto|done].
Qed.

Lemma storage_over_runs_witness :
  is_Some
    (localStorage
       (run sample_engine
          [(answering (Resolved JUndefined), DoLogout);
           (answering (Rejected network_error), DoLogin ash_credentials)]
          session_with_token) !! js "token").
Proof.
  apply (proj2 (storage_over_runs sample_engine
                  [(answering (Resolved JUndefined), DoLogout);
                   (answering (Rejected network_error), DoLogin ash_credentials)]
                  session_with_token)).
  exists (js "t1"). reflexivity.
Defined.

(** X16. [updateUser] needs no session: it makes any object the user
    (and so [isAuthenticated] true) whatever the storage holds, leaves the
    [token] entry alone, and of two updates in a row only the second
    remains, in the state and under [user]. *)
Theorem updateUser_last_wins E w u1 u2 :
  (is_object u1 = true →
   AuthContextType.isAuthenticated (context_value (updateUser E u1 w).2) = true) ∧
  localStorage (updateUser E u1 w).2 !! js "token" = localStorage w !! js "token" ∧
  user (updateUser E u2 (updateUser E u1 w).2).2 = u2 ∧
  localStorage (updateUser E u2 (updateUser E u1 w).2).2 =
    localStorage (updateUser E u2 w).2.
Proof.
  rewrite !updateUser_run. cbn. split; [by destruct u1|].
  split; [by apply lookup_insert_ne|]. split; [done|]. apply insert_insert_eq.
Qed.

Lemma updateUser_last_wins_witness :
  AuthContextType.isAuthenticated
    (context_value (updateUser sample_engine ash first_render).2) = true.
Proof.
  exact (proj1 (updateUser_last_wins sample_engine first_render ash ash) eq_refl).
Defined.

(** ** The e-mail check and the messages *)

Lemma shape_not_nil s : text_at_text_dot_text s → s ≠ [].
Proof.
  intros (pre & a & b & c & post & Heq & _) Hnil. rewrite Hnil in Heq.
  apply (f_equal (@List.length N)) in Heq. rewrite !length_app in Heq.
  simpl in Heq. lia.
Qed.

Lemma no_email_error_iff f :
  validateRegisterForm f !! js "email" = None ↔
  text_at_text_dot_text (RegisterForm.email f).
Proof.
  rewrite eq_None_not_Some, register_email_rule, <- email_pattern_test. split.
  - intros Hno. destruct (regex_test email_pattern (RegisterForm.email f)); [done|].
    destruct Hno. by right.
  - intros Ht [Hnil|Hno]; [|done].
    apply email_pattern_test in Ht. by apply shape_not_nil in Ht.
Qed.

(** X17. The e-mail check of the register form looks for the shape
    anywhere in the input: an e-mail that passes still passes with
    arbitrary text, white space included, put before and after it. *)
Theorem email_check_ignores_surroundings f pre post :
  validateRegisterForm f !! js "email" = None →
  validateRegisterForm
    (RegisterForm.mk (RegisterForm.username f) (pre ++ RegisterForm.email f ++ post)
       (RegisterForm.password f) (RegisterForm.confirmPassword f)) !! js "email" = None.
Proof.
  rewrite !no_email_error_iff. cbn [RegisterForm.email].
  intros (pre' & a & b & c & post' & -> & Ha & Hb & Hc).
  exists (pre ++ pre'), a, b, c, (post' ++ post). split; [|done].
  by rewrite <- !app_assoc.
Qed.

Lemma email_check_ignores_surroundings_witness :
  validateRegisterForm
    (RegisterForm.mk (js "ash") (js "mail me at " ++ js "a@b.c" ++ js " please")
       (js "pikachu") (js "pikachu")) !! js "email" = None.
Proof.
  apply (email_check_ignores_surroundings
           (RegisterForm.mk (js "ash") (js "a@b.c") (js "pikachu") (js "pikachu"))
           (js "mail me at ") (js " please")).
  reflexivity.
Defined.

(** X18. An e-mail that passes the check of the register form has an [@]
    that is not its first character and, at least two positions later, a
    [.] that is not its last character; so it has at least 5 code units,
    and an input without [@] or without [.] never passes. *)
Theorem accepted_email_has_at_and_dot f :
  validateRegisterForm f !! js "email" = None →
  ∃ i j,
    (0 < i)%nat ∧ (i + 1 < j)%nat ∧ (j + 1 < List.length (RegisterForm.email f))%nat ∧
    RegisterForm.email f !! i = Some 64%N ∧
    RegisterForm.email f !! j = Some 46%N.
Proof.
  rewrite no_email_error_iff.
  intros (pre & a & b & c & post & -> & [Ha _] & [Hb _] & [Hc _]).
  assert (0 < List.length a)%nat by (destruct a; [done|simpl; lia]).
  assert (0 < List.length b)%nat by (destruct b; [done|simpl; lia]).
  assert (0 < List.length c)%nat by (destruct c; [done|simpl; lia]).
  exists (List.length pre + List.length a)%nat,
         (List.length pre + List.length a + 1 + List.length b)%nat.
  split; [lia|]. split; [lia|]. split; [|split].
  - rewrite !length_app. change (List.length (js "@")) with 1%nat.
    change (List.length (js ".")) with 1%nat. lia.
  - change (js "@" ++ b ++ js "." ++ c ++ post)
      with (64%N :: (b ++ js "." ++ c ++ post)).
    rewrite (app_assoc pre a). apply list_lookup_middle. by rewrite length_app.
  - change (js "." ++ c ++ post) with (46%N :: (c ++ post)).
    rewrite (app_assoc pre a), (app_assoc (pre ++ a)), (app_assoc ((pre ++ a) ++ js "@")).
    apply list_lookup_middle. rewrite !length_app.
    change (List.length (js "@")) with 1%nat. lia.
Qed.

Lemma accepted_email_has_at_and_dot_witness :
  ∃ i j,
    (0 < i)%nat ∧ (i + 1 < j)%nat ∧ (j + 1 < List.length (js "a@b.c"))%nat ∧
    js "a@b.c" !! i = Some 64%N ∧ js "a@b.c" !! j = Some 46%N.
Proof.
  apply (accepted_email_has_at_and_dot
           (RegisterForm.mk (js "ash") (js "a@b.c") (js "pikachu") (js "pikachu"))).
  reflexivity.
Defined.

(** X19. Which message a field gets.  The 'required' message takes
    precedence: an empty e-mail is never called invalid and an empty
    password never too short; a non-empty e-mail without the shape gets
    'Invalid email', a non-empty password under 6 code units gets the
    length message.  When password and confirmation are both empty the
    confirmation gets no message.  No message is the empty string, so
    every entry of an error map is rendered under its input. *)
Theorem validation_messages f :
  (validateRegisterForm f !! js "email" = Some (js "Email is required") ↔
     RegisterForm.email f = []) ∧
  (validateRegisterForm f !! js "email" = Some (js "Invalid email") ↔
     RegisterForm.email f ≠ [] ∧ ¬ text_at_text_dot_text (RegisterForm.email f)) ∧
  (validateRegisterForm f !! js "password" = Some (js "Password is required") ↔
     RegisterForm.password f = []) ∧
  (validateRegisterForm f !! js "password" =
     Some (js "Password must be at least 6 characters") ↔
     RegisterForm.password f ≠ [] ∧ (List.length (RegisterForm.password f) < 6)%nat) ∧
  (RegisterForm.password f = [] → RegisterForm.confirmPassword f = [] →
     validateRegisterForm f !! js "confirmPassword" = None) ∧
  (∀ k m, validateRegisterForm f !! k = Some m → truthy (JStr m) = true) ∧
  (∀ g k m, validateLoginForm g !! k = Some m → truthy (JStr m) = true).
Proof.
  split; [|split; [|split; [|split; [|split; [|split]]]]].
  - rewrite validateRegisterForm_email.
    destruct (truthy (JStr (RegisterForm.email f))) eqn:Ht; cbn [negb].
    + apply truthy_JStr_true in Ht.
      destruct (regex_test email_pattern (RegisterForm.email f)); cbn [negb];
        split; try done; discriminate.
    + apply truthy_JStr_false in Ht. done.
  - rewrite validateRegisterForm_email, <- email_pattern_test.
    destruct (truthy (JStr (RegisterForm.email f))) eqn:Ht; cbn [negb].
    + apply truthy_JStr_true in Ht.
      destruct (regex_test email_pattern (RegisterForm.email f)); cbn [negb].
      * split; [discriminate|]. by intros [_ ?].
      * split; [|done]. intros _. split; [done|discriminate].
    + apply truthy_JStr_false in Ht. split; [discriminate|]. by intros [? _].
  - rewrite validateRegisterForm_password.
    destruct (truthy (JStr (RegisterForm.password f))) eqn:Ht; cbn [negb].
    + apply truthy_JStr_true in Ht.
      destruct (List.length (RegisterForm.password f) <? 6)%nat;
        split; try done; discriminate.
    + apply truthy_JStr_false in Ht. done.
  - rewrite validateRegisterForm_password.
    destruct (truthy (JStr (RegisterForm.password f))) eqn:Ht; cbn [negb].
    + apply truthy_JStr_true in Ht.
      destruct (Nat.ltb_spec (List.length (RegisterForm.password f)) 6).
      * done.
      * split; [discriminate|]. intros [_ ?]. lia.
    + apply truthy_JStr_false in Ht. split; [discriminate|]. by intros [? _].
  - intros Hp Hc. rewrite validateRegisterForm_confirmPassword, Hp, Hc. done.
  - intros k m Hm.
    destruct (decide (k = js "username")) as [->|Hk1].
    { rewrite validateRegisterForm_username in Hm.
      destruct (truthy (JStr (RegisterForm.username f))); by simplify_eq. }
    destruct (decide (k = js "email")) as [->|Hk2].
    { rewrite validateRegisterForm_email in Hm.
      destruct (negb (truthy (JStr (RegisterForm.email f))));
        [by simplify_eq|].
      destruct (negb (regex_test email_pattern (RegisterForm.email f))); by simplify_eq. }
    destruct (decide (k = js "password")) as [->|Hk3].
    { rewrite validateRegisterForm_password in Hm.
      destruct (negb (truthy (JStr (RegisterForm.password f))));
        [by simplify_eq|].
      destruct (List.length (RegisterForm.password f) <? 6)%nat; by simplify_eq. }
    destruct (decide (k = js "confirmPassword")) as [->|Hk4].
    { rewrite validateRegisterForm_confirmPassword in Hm.
      case_bool_decide; by simplify_eq. }
    by rewrite validateRegisterForm_other in Hm.
  - intros g k m Hm.
    destruct (decide (k = js "email")) as [->|Hk1].
    { rewrite validateLoginForm_email in Hm.
      destruct (truthy (JStr (LoginForm.email g))); by simplify_eq. }
    destruct (decide (k = js "password")) as [->|Hk2].
    { rewrite validateLoginForm_password in Hm.
      destruct (truthy (JStr (LoginForm.password g))); by simplify_eq. }
    by rewrite validateLoginForm_other in Hm.
Qed.

Lemma validation_messages_witness :
  validateRegisterForm (RegisterForm.mk [] [] [] []) !! js "confirmPassword" = None.
Proof.
  exact (proj1 (proj2 (proj2 (proj2 (proj2
           (validation_messages (RegisterForm.mk [] [] [] []))))))
           eq_refl eq_refl).
Defined.

(** ** What the toasts say *)





(** ** Fulfilled calls and the authentication flag *)

(** X21. When the collaborators respect the declared types, a [login] or
    [register] whose promise fulfils leaves the consumer authenticated.
    A [logout] whose end-session call succeeds always leaves the consumer
    not authenticated. *)
Theorem fulfilled_calls_authenticate E B credentials w :
  (typed_step (B, DoLogin credentials) →
   rejects (login E B credentials w).1 = false →
   AuthContextType.isAuthenticated (context_value (login E B credentials w).2) = true) ∧
  (typed_step (B, DoRegister credentials) →
   rejects (register E B credentials w).1 = false →
   AuthContextType.isAuthenticated (context_value (register E B credentials w).2) = true) ∧
  (∀ v, logout_outcome B = Fulfilled v →
        AuthContextType.isAuthenticated (context_value (logout E B w).2) = false).
Proof.
  assert (Hobj : ∀ v, is_object v = true → truthy v = true) by (by intros []).
  split; [|split].
  - intros (Hpost & _ & _). cbn [fst] in Hpost.
    login_paths E B credentials w; cbn [fst rejects]; try done.
    intros _. cbn. apply Hobj. by eapply Hpost.
  - intros (Hpost & _ & _). cbn [fst] in Hpost.
    register_paths E B credentials w; cbn [fst rejects]; try done.
    intros _. cbn. apply Hobj. by eapply Hpost.
  - intros v Ho. by rewrite (logout_resolved E B w v Ho).
Qed.

Lemma fulfilled_calls_authenticate_witness :
  AuthContextType.isAuthenticated
    (context_value
       (login sample_engine (answering (Resolved full_response)) ash_credentials
          first_render).2) = true ∧
  AuthContextType.isAuthenticated
    (context_value (logout sample_engine (answering (Resolved JUndefined)) logged_in).2)
  = false.
Proof.
  assert (Htyped : ∀ a, typed_step (answering (Resolved full_response), a) ∨
                        ∃ u, a = DoUpdateUser u).
  { intros a. destruct a as [|c|c| |u|tab|tab field val|tab];
      first [ right; by eexists
            | left; split; [|split];
              [ intros url body d Hd; injection Hd as <-; reflexivity
              | intros v Hv; injection Hv as <-; reflexivity
              | intros u Hu; discriminate Hu ] ]. }
  destruct (Htyped (DoLogin ash_credentials)) as [Ht|[u Hu]]; [|discriminate Hu].
  destruct (fulfilled_calls_authenticate sample_engine (answering (Resolved full_response))
              ash_credentials first_render) as (Hl & _ & _).
  destruct (fulfilled_calls_authenticate sample_engine (answering (Resolved JUndefined))
              ash_credentials logged_in) as (_ & _ & Ho).
  split; [exact (Hl Ht eq_refl)|exact (Ho JUndefined eq_refl)].
Defined.
